(** * Subscore, regression and decoding pipeline of decod_unseen_maintenance

    Shallow embedding of the trial selection, subscoring and single-trial
    regression code of [scripts/run_plot_subscore_gat.py] and of the
    per-subject driver [_run] of [scripts/run_decoding.py].

    Conventions of the embedding:
    - numpy float arrays of predictions are lists of reals ([R]); an array of
      shape (n_trials, n_times) is a list of per-trial rows;
    - trial metadata (a pandas DataFrame) is a list of [event] records, one per
      trial, in trial order; the discrete factor columns hold rationals ([Q]),
      compared with [Qeq_bool] / [Qle_bool];
    - a NaN cell of a result array is [None], a finite cell [Some v];
    - Python exceptions are the [Err] branch of the small error monad [res];
    - functions of external packages ([jr.gat.subscore], [jr.stats.repeated_spearman],
      the scorers of sklearn, mne's [GeneralizationAcrossTime]) are Section
      variables: every statement holds for any implementation of them. *)

From Stdlib Require Import String.
From Stdlib Require Import List Bool Arith Lia ZArith QArith.
From Stdlib Require Import Reals Lra.
From Stdlib Require Import Permutation.
Import ListNotations.

Open Scope string_scope.
Open Scope list_scope.

(* ------------------------------------------------------------------------- *)
(** ** Exceptions *)

Inductive exn : Type :=
| KeyError
| ValueError.

Inductive res (A : Type) : Type :=
| Ok : A -> res A
| Err : exn -> res A.
Arguments Ok {A} _.
Arguments Err {A} _.

Definition bind {A B : Type} (m : res A) (k : A -> res B) : res B :=
  match m with
  | Ok a => k a
  | Err e => Err e
  end.

Notation "'let*' x := m 'in' k" := (bind m (fun x => k))
  (at level 200, x name, m at level 100, k at level 200).

(* ------------------------------------------------------------------------- *)
(** ** Python's float modulo and the single-trial error of [_subregress] *)

Module CircError.
Local Open Scope R_scope.

(** Python's [x % m] on floats: the result has the sign of [m],
    [x - m * floor (x / m)]; [Int_part] is the floor of a real. *)
Definition py_mod (x m : R) : R := x - m * IZR (Int_part (x / m)).

(** [substr_in s t] is Python's [s in t] on strings. *)
Definition substr_in (s t : string) : bool :=
  match index 0 s t with
  | Some _ => true
  | None => false
  end.

(** Lines 141-145 of [_subregress], for one trial and one time point. *)
Definition trial_error (name : string) (pred true_ : R) : R :=
  if substr_in "circAngle" name
  then Rabs (PI - py_mod (pred - true_) (2 * PI))
  else Rabs (pred - true_).

(** The vectorised form: [y_pred] has shape (n_trials, n_times) and
    [y_true] is broadcast along the time axis ([y_true[:, np.newaxis]]). *)
Definition y_error (name : string) (y_pred : list (list R)) (y_true : list R)
  : list (list R) :=
  map (fun '(row, yt) => map (fun p => trial_error name p yt) row)
      (combine y_pred y_true).

End CircError.

(* ------------------------------------------------------------------------- *)
(** ** Trial metadata and numpy-style selection *)

Module Events.

(** One row of the behavioural DataFrame [events] (after
    [events.iloc[events_sel].reset_index()], so row labels are positions).
    For absent trials the angle column is NaN in the data; the model lets it
    hold any value, so statements about it cover every value. *)
Record event : Type := mkEvent {
  detect_button : Q;
  target_contrast : Q;
  target_present : bool;
  target_circAngle : Q
}.

(** [events[name]] for the columns the scripts read; an unknown column
    raises [KeyError]. A boolean column reads as 1/0. *)
Definition column (name : string) : option (event -> Q) :=
  if String.eqb name "detect_button" then Some detect_button
  else if String.eqb name "target_contrast" then Some target_contrast
  else if String.eqb name "target_present"
       then Some (fun e => if target_present e then 1%Q else 0%Q)
  else if String.eqb name "target_circAngle" then Some target_circAngle
  else None.

Definition col (name : string) (events : list event) : res (list Q) :=
  match column name with
  | Some f => Ok (map f events)
  | None => Err KeyError
  end.

(** [np.where(mask)[0]]: the positions where [mask] holds, increasing. *)
Fixpoint where_from (k : nat) (mask : list bool) : list nat :=
  match mask with
  | [] => []
  | b :: mask' => if b then k :: where_from (S k) mask' else where_from (S k) mask'
  end.

Definition np_where (mask : list bool) : list nat := where_from 0 mask.

(** Fancy indexing [xs[sel]]; every index used by the scripts is in range. *)
Definition take {A : Type} (d : A) (xs : list A) (sel : list nat) : list A :=
  map (fun i => nth i xs d) sel.

(** [np.intersect1d(a, b)]; both arguments are [np.where] results (sorted,
    without duplicates), for which filtering [a] by membership in [b] gives
    the sorted unique intersection. *)
Definition intersect1d (a b : list nat) : list nat :=
  filter (fun i => existsb (Nat.eqb i) b) a.

(** [len(np.unique(xs))]. *)
Fixpoint n_unique (xs : list Q) : nat :=
  match xs with
  | [] => 0
  | x :: xs' => if existsb (Qeq_bool x) xs' then n_unique xs' else S (n_unique xs')
  end.

(** [events['target_present'] == False]: the absent-target trials. *)
Definition absent_trials (events : list event) : list nat :=
  np_where (map (fun e => negb (target_present e)) events).

(** The [factors] dict of [_subscore] and [_subregress]. *)
Definition factors (factor : string) : res (string * list Q) :=
  if String.eqb factor "visibility"
  then Ok ("detect_button", [0; 1; 2; 3]%Q)
  else if String.eqb factor "contrast"
  then Ok ("target_contrast", [1#2; 3#4; 1]%Q)
  else Err KeyError.

(** [y_pred.shape[1]] of a (n_trials, n_times) array. *)
Definition n_times_of {A : Type} (y_pred : list (list A)) : nat :=
  match y_pred with
  | row :: _ => length row
  | [] => 0
  end.

End Events.

(* ------------------------------------------------------------------------- *)
(** ** [_subscore]: score each factor level of single-trial predictions *)

Module Subscore.
Import Events.

Section WithScorer.

(** [analysis['scorer']]: maps the true labels and the (k, n_times)
    predictions of a subset to one score per time point. *)
Variable scorer : list Q -> list (list R) -> list R.

(** [scores[t, ii]], the cell at time point [t] and level [ii]. *)
Definition cell (scores : list (list (option R))) (t ii : nat) : option R :=
  nth ii (nth t scores []) None.

(** [scores[:, ii] = v] on a (n_times, n_values) array; [v] has one value
    per time point (numpy raises on any other shape). *)
Definition set_col (scores : list (list (option R))) (ii : nat) (v : list R)
  : list (list (option R)) :=
  map (fun '(t, row) => firstn ii row ++ [Some (nth t v 0%R)] ++ skipn (S ii) row)
      (combine (seq 0 (length scores)) scores).

(** Lines 110-115: the trials selected for the level [value]. *)
Definition level_sel (name : string) (events : list event) (key_col : list Q)
    (value : Q) : list nat :=
  let sel := np_where (map (fun x => Qeq_bool x value) key_col) in
  if String.eqb name "target_present" then sel ++ absent_trials events else sel.

(** Lines 117-122: [None] when the level is skipped ([continue]), otherwise
    the scores written into the level's column. *)
Definition level_score (name : string) (y_pred : list (list R))
    (events : list event) (y_true key_col : list Q) (value : Q)
  : option (list R) :=
  let sel := level_sel name events key_col value in
  if Nat.ltb (length sel) 5 || Nat.ltb (n_unique (take 0%Q y_true sel)) 2 then None
  else Some (scorer (take 0%Q y_true sel) (take [] y_pred sel)).

(** The loop over [enumerate(values)] starting from the all-NaN array. *)
Definition fill_levels (name : string) (y_pred : list (list R))
    (events : list event) (y_true key_col : list Q)
    (scores : list (list (option R))) (levels : list (nat * Q))
  : list (list (option R)) :=
  fold_left
    (fun scores '(ii, value) =>
       match level_score name y_pred events y_true key_col value with
       | None => scores
       | Some v => set_col scores ii v
       end) levels scores.

(** [_subscore(y_pred, events, analysis, factor)]; a 1-D [y_pred] is the
    case where every row has length 1. *)
Definition _subscore (y_pred : list (list R)) (events : list event)
    (name : string) (factor : string) : res (list (list (option R))) :=
  let* kv := factors factor in
  let '(key, values) := kv in
  let* y_true := col name events in
  let* key_col := col key events in
  let n_times := n_times_of y_pred in
  let scores := repeat (repeat None (length values)) n_times in
  Ok (fill_levels name y_pred events y_true key_col scores
        (combine (seq 0 (length values)) values)).

(** The value written in the column of a level, or [None] if skipped. *)
Definition level_cell (name : string) (y_pred : list (list R))
    (events : list event) (y_true key_col : list Q) (value : Q) (t : nat) (old : option R) : option R :=
  match level_score name y_pred events y_true key_col value with
  | None => old
  | Some v => Some (nth t v 0%R)
  end.

End WithScorer.
End Subscore.

(* ------------------------------------------------------------------------- *)
(** ** [_subscore_pipeline]: per-subject loop over the four visibility levels *)

Module Pipeline.
Import Events.

Section WithGat.

(** [jr.gat.subscore(gat, sel)] on the loaded [gat], and
    [gat.y_pred_.shape[:2]]. *)
Variable subscore : list nat -> list (list R).
Variables n_train n_test : nat.

(** Lines 49-56: the trials passed to [subscore] for the level [vis], or
    [None] when the level is skipped. *)
Definition pipeline_sel (name : string) (events : list event) (vis : Q)
  : option (list nat) :=
  let sel := np_where (map (fun e => Qeq_bool (detect_button e) vis) events) in
  if Nat.ltb (length sel) 5 then None
  else if String.eqb name "target_present"
       then Some (sel ++ absent_trials events)
       else Some sel.

(** Lines 49-58 for one level: the NaN matrix or the subscore. *)
Definition pipeline_level (name : string) (events : list event) (vis : Q)
  : list (list (option R)) :=
  match pipeline_sel name events vis with
  | None => repeat (repeat None n_test) n_train
  | Some sel => map (map Some) (subscore sel)
  end.

(** [scores] of one subject: [for vis in range(4)]. *)
Definition subject_scores (name : string) (events : list event)
  : list (list (list (option R))) :=
  map (pipeline_level name events) [0; 1; 2; 3]%Q.

End WithGat.
End Pipeline.

(* ------------------------------------------------------------------------- *)
(** ** [_subregress] and [_correlate]: rank correlation with a factor *)

Module Regress.
Import Events.

Section WithSpearman.

(** [jr.stats.repeated_spearman(X, y)]: one rank correlation per column of
    the (k, n_times) array [X] against the length-k vector [y]. *)
Variable repeated_spearman : list (list R) -> list Q -> list R.

(** [np.nanmean(R, axis=0)] on a (n_rows, n_times) array: per column, the
    mean of the finite cells, NaN when there is none. *)
Definition nanmean_axis0 (rows : list (list (option R))) (n_times : nat)
  : list (option R) :=
  map (fun t =>
         let vs := flat_map (fun row => match nth t row None with
                                        | Some v => [v]
                                        | None => []
                                        end) rows in
         match vs with
         | [] => None
         | _ => Some (fold_right Rplus 0%R vs / INR (length vs))%R
         end) (seq 0 n_times).

(** Lines 148-150: present trials whose factor value is at least the
    smallest declared level. *)
Definition regress_sel (events : list event) (key_col : list Q) (values : list Q)
  : list nat :=
  intersect1d (np_where (map target_present events))
              (np_where (map (fun x => Qle_bool (hd 0%Q values) x) key_col)).

(** Lines 153-165: one row of [R] per [cov_value]. [cov_values] comes from
    [factors[factor]], as on line 156. *)
Definition independent_rows (y_err : list (list R)) (key_col cov_col : list Q)
    (sel : list nat) (cov_values : list Q) (n_times : nat)
  : list (list (option R)) :=
  map (fun cov_value =>
         let cov_sel :=
           intersect1d (np_where (map (fun x => Qeq_bool x cov_value) cov_col)) sel in
         if Nat.leb (length cov_sel) 5 then repeat None n_times
         else map Some (repeated_spearman (take [] y_err cov_sel)
                                          (take 0%Q key_col cov_sel)))
      cov_values.

(** [_subregress(y_pred, events, analysis, factor, independent)]. The
    non-independent result (finite) is lifted to the same array type. *)
Definition _subregress (y_pred : list (list R)) (events : list event)
    (name : string) (factor : string) (independent : bool)
  : res (list (option R)) :=
  let* kv := factors factor in
  let '(key, values) := kv in
  let* y_true := col name events in
  if negb (Nat.eqb (length y_pred) (length y_true)) then Err ValueError
  else
  let n_times := n_times_of y_pred in
  let y_err := CircError.y_error name y_pred (map Q2R y_true) in
  let* key_col := col key events in
  let sel := regress_sel events key_col values in
  if independent then
    let cov_factor :=
      if String.eqb factor "visibility" then "target_contrast" else "detect_button" in
    let* kv' := factors factor in
    let '(cov_key, cov_values) := kv' in
    let* cov_col := col cov_factor events in
    Ok (nanmean_axis0 (independent_rows y_err key_col cov_col sel cov_values n_times)
                      n_times)
  else
    Ok (map Some (repeated_spearman (take [] y_err sel) (take 0%Q key_col sel))).

(** [a.reshape(n_train, n_test)] of a flat vector of length n_train*n_test. *)
Definition reshape2 (n_train n_test : nat) (flat : list R) : list (list R) :=
  map (fun i => firstn n_test (skipn (i * n_test) flat)) (seq 0 n_train).

(** Loop body of [_correlate] for one subject. [y_pred_] is the stored
    (n_train, n_test, n_trials, n_dims) prediction tensor. *)
Definition correlate_subject (y_pred_ : list (list (list (list R))))
    (events : list event) : list (list R) :=
  let y_vis := map detect_button events in
  let sel := np_where (map target_present events) in
  let y_vis := take 0%Q y_vis sel in
  let y_pred_ := map (map (fun trials => take [] trials sel)) y_pred_ in
  let n_train := length y_pred_ in
  let n_test := n_times_of y_pred_ in
  (* y_pred_.transpose(2, 0, 1, 3)[..., 0].reshape(n_trials, -1) *)
  let y_pred :=
    map (fun k => flat_map (fun train_row =>
                              map (fun trials => hd 0%R (nth k trials [])) train_row)
                           y_pred_)
        (seq 0 (length sel)) in
  reshape2 n_train n_test (repeated_spearman y_pred y_vis).

End WithSpearman.
End Regress.

(* ------------------------------------------------------------------------- *)
(** ** [_run] of [run_decoding.py]: one (subject, analysis) unit *)

Module Decoding.

(** A behaviour DataFrame as its columns; a float cell is [None] when NaN. *)
Definition dataframe := list (string * list (option Q)).

Definition n_rows (events : dataframe) : nat :=
  match events with
  | (_, c) :: _ => length c
  | [] => 0
  end.

(** [events[name]]: [KeyError] when the column is missing. *)
Definition get_column (events : dataframe) (name : string) : res (list (option Q)) :=
  match find (fun '(k, _) => String.eqb k name) events with
  | Some (_, c) => Ok c
  | None => Err KeyError
  end.

(** The fields of an analysis dict that [_run] reads; [query] is the
    boolean mask that [events.query(query)] selects. *)
Record analysis : Type := mkAnalysis {
  ana_name : string;
  query : option (dataframe -> list bool);
  condition : string
}.

(** Observable effects of a run: fitting and scoring the GAT on the
    selected trials and saving an artifact of a kind ('decod', 'score'). *)
Inductive effect : Type :=
| Fit (sel : list nat)
| Score (sel : list nat)
| Save (kind : string) (name : string).

(** Lines 21-22: [range(len(events))] or the rows the query keeps. *)
Definition query_sel (events : dataframe) (a : analysis) : list nat :=
  match query a with
  | None => seq 0 (n_rows events)
  | Some q => Events.np_where (q events)
  end.

(** Lines 20-23: trial selection, then removal of NaN-labelled trials. *)
Definition selection (events : dataframe) (a : analysis) : res (list nat) :=
  let sel := query_sel events a in
  let* cond := get_column events (condition a) in
  Ok (filter (fun ii => match nth ii cond None with
                        | Some _ => true
                        | None => false
                        end) sel).

(** [_run(epochs, events, analysis)]: the effects performed, in order. *)
Definition _run (events : dataframe) (a : analysis) : res (list effect) :=
  let* sel := selection events a in
  if Nat.eqb (length sel) 0 then Ok []
  else Ok [Fit sel; Score sel; Save "decod" (ana_name a); Save "score" (ana_name a)].

End Decoding.

(* ------------------------------------------------------------------------- *)
(** ** Concrete inputs *)

Module Samples.
Import Events Decoding.

(** The default row used by [nth] in statements: an absent trial. *)
Definition ev_absent0 : event := mkEvent 0 1 false 0.

(** A present trial rated 1. *)
Definition ev_present_vis1 : event := mkEvent 1 1 true 0.

Definition events_all_nan : dataframe :=
  [("target_present", [Some 1%Q; Some 0%Q]); ("target_circAngle", [None; None])].

Definition circ_analysis : analysis :=
  mkAnalysis "target_circAngle" None "target_circAngle".

(** Four present trials rated 1 and one absent trial rated 0. *)
Definition ev_present1 : event := mkEvent 1 1 true 0.
Definition events_cx : list event :=
  [ev_present1; ev_present1; ev_present1; ev_present1; ev_absent0].
Definition y_pred_cx : list (list R) := repeat [0%R] 5.

(** [events_cx] with a sixth, present trial rated 2, and two prediction
    arrays that differ only on that trial. *)
Definition events_lv : list event := events_cx ++ [mkEvent 2 1 true 0].
Definition y_pred_lv : list (list R) := repeat [0%R] 5 ++ [[0%R]].
Definition y_pred_lv' : list (list R) := repeat [0%R] 5 ++ [[1%R]].

(** The absent trial of [events_cx] with other rating, contrast and angle. *)
Definition ev_absent_other : event := mkEvent 3 (1#2) false 2.

(** Six present trials at contrast 0.5, then six at contrast 1. *)
Definition events_c8 : list event :=
  map (fun v => mkEvent v (1#2) true 0) [0; 1; 2; 3; 0; 1]%Q ++
  map (fun v => mkEvent v 1 true 0) [0; 1; 2; 3; 2; 3]%Q.
Definition y_pred_c8 : list (list R) := repeat [0%R] 12.

End Samples.

(* ------------------------------------------------------------------------- *)
(** ** Time axis helpers of the plotting and statistics code *)

Module TimeAxis.
Import Events.
Local Open Scope nat_scope.

(** [np.where((times >= toi[0]) & (times <= toi[1]))[0]] (lines 77, 302,
    557, 550). *)
Definition toi_sel (times : list Q) (lo hi : Q) : list nat :=
  np_where (map (fun x => Qle_bool lo x && Qle_bool x hi) times).

(** [np.where(times >= x)[0][0]] (lines 355, 548, 603); [None] is the
    [IndexError] raised when no time reaches [x]. *)
Definition first_at_least (times : list Q) (x : Q) : option nat :=
  match np_where (map (fun t => Qle_bool x t) times) with
  | i :: _ => Some i
  | [] => None
  end.

(** [np.roll(row, k)] for [k >= 0]: the element at [i] moves to
    [(i + k) mod n]. *)
Definition roll {A : Type} (k : nat) (row : list A) : list A :=
  match length row with
  | 0 => row
  | n => let s := k mod n in skipn (n - s) row ++ firstn (n - s) row
  end.

(** Line 300 of [_duration_toi]: [np.roll(scores, len(times) // 2, axis=2)]
    on the (n_subject, n_train, n_times) array. *)
Definition center_rows (times : list Q) (scores : list (list (list R)))
  : list (list (list R)) :=
  map (map (roll (length times / 2))) scores.

(** Line 388: [roll_times = times - times[len(times) // 2]]. *)
Definition roll_times (times : list Q) : list Q :=
  map (fun t => (t - nth (length times / 2) times 0%Q)%Q) times.

(** [np.diff] of an increasing index array. *)
Fixpoint np_diff (l : list nat) : list nat :=
  match l with
  | x :: ((y :: _) as t) => (y - x) :: np_diff t
  | _ => []
  end.

(** Python indexing [l[i]] with negative [i] counted from the end;
    [None] is [IndexError]. *)
Definition py_index {A : Type} (l : list A) (i : Z) : option A :=
  if (i <? 0)%Z then
    (if (Z.of_nat (length l) + i <? 0)%Z then None
     else nth_error l (Z.to_nat (Z.of_nat (length l) + i)))
  else nth_error l (Z.to_nat i).

(** Lines 608-609: [[sig[0], sig[np.where(np.diff(sig) > 1)[0][0] - 1]]],
    reached only when [len(sig)] is non-zero; [None] is [IndexError]. *)
Definition first_cluster (sig : list nat) : option (nat * nat) :=
  match sig with
  | [] => None
  | s0 :: _ =>
      match np_where (map (fun d => Nat.ltb 1 d) (np_diff sig)) with
      | [] => None
      | j :: _ =>
          match py_index sig (Z.of_nat j - 1) with
          | Some e => Some (s0, e)
          | None => None
          end
      end
  end.

End TimeAxis.

(* ------------------------------------------------------------------------- *)
(** ** The 'diag-gen' statistic (lines 555-563) *)

Module DiagGen.

Definition sum (v : list R) : R := fold_right Rplus 0%R v.

(** [x.mean()] of a 1-D array. *)
Definition mean (v : list R) : R := (sum v / INR (length v))%R.

(** [x.mean()] of a 2-D array: all cells. *)
Definition mean2d (m : list (list R)) : R := mean (concat m).

(** [scores[s, toi, toi]] for one subject: numpy pairs the two index
    arrays, giving [scores[s, toi[k], toi[k]]] for each [k]. *)
Definition paired_index (m : list (list R)) (toi : list nat) : list R :=
  map (fun k => nth k (nth k m []) 0%R) toi.

(** [np.diag(v)] of a 1-D array: the square matrix with [v] on its
    diagonal and zeros elsewhere. *)
Definition np_diag_1d (v : list R) : list (list R) :=
  map (fun i => map (fun j => if Nat.eqb i j then nth i v 0%R else 0%R)
                    (seq 0 (length v)))
      (seq 0 (length v)).

(** Lines 558-562 for one subject's (train, test) matrix [m]:
    [(np.diag(subject).mean(), subject.mean())] of [subject = m[toi, toi]]. *)
Definition diag_gen (m : list (list R)) (toi : list nat) : R * R :=
  let subject := paired_index m toi in
  (mean2d (np_diag_1d subject), mean subject).

End DiagGen.

(* ------------------------------------------------------------------------- *)
(** ** Caching, artifact pruning and per-subject storage *)

Module Store.
Local Open Scope nat_scope.

(** The "don't recompute if not necessary" pattern of [_subscore_pipeline],
    [_analyze_continuous], [_analyze_toi], [_correlate] and [_duration_toi]:
    [os.path.exists(fname)] then [load], else compute and [save]. The store
    maps an artifact name ([analysis['name'] + '-vis'], ...) to its value. *)
Definition cached {A : Type} (ana_name : string) (compute : unit -> A)
    (store : list (string * A)) : A * list (string * A) :=
  match find (fun '(k, _) => String.eqb k ana_name) store with
  | Some (_, v) => (v, store)
  | None => let v := compute tt in (v, (ana_name, v) :: store)
  end.

(** Lines 46-54 of [run_decoding._run]: which parts of the fitted GAT are
    kept in the saved 'decod' artifact. *)
Definition keeps_estimators (name : string) : bool :=
  existsb (String.eqb name) ["probe_phase"; "target_circAngle"].

Definition keeps_y_pred (name : string) : bool :=
  existsb (String.eqb name) ["target_present"; "target_circAngle"; "probe_circAngle"].

(** Lines 25-26 of [run_plot_subscore_gat.py]: the analyses it processes. *)
Definition subscore_analyses (names : list string) : list string :=
  filter (fun n => existsb (String.eqb n) ["target_present"; "target_circAngle"]) names.

(** [arr[s] = v] on an array with [length rows] rows; [None] is the
    [IndexError] of an out-of-range row. *)
Definition set_row {A : Type} (rows : list A) (s : nat) (v : A) : option (list A) :=
  if Nat.ltb s (length rows) then Some (firstn s rows ++ v :: skipn (S s) rows)
  else None.

(** The [for s, subject in enumerate(subjects)] loop of
    [_analyze_continuous] and [_analyze_toi] storing one value per subject
    into [np.zeros((n_subject, ...))] with [n_subject = 20]. *)
Definition store_subjects {A : Type} (zero : A) (per_subject : list A)
  : option (list A) :=
  fold_left (fun acc '(s, v) => match acc with
                                | Some rows => set_row rows s v
                                | None => None
                                end)
            (combine (seq 0 (length per_subject)) per_subject)
            (Some (repeat zero 20)).

End Store.

(* ========================================================================= *)
(** * Properties *)

(* ------------------------------------------------------------------------- *)
(** ** Single-trial error *)

Module CircErrorFacts.
Import CircError.
Local Open Scope R_scope.

Lemma Int_part_unique (r : R) (k : Z) :
  IZR k <= r < IZR k + 1 -> Int_part r = k.
Proof.
  intros [Hlo Hhi].
  destruct (base_Int_part r) as [Hj1 Hj2].
  set (j := Int_part r) in *.
  assert (H1 : (j < k + 1)%Z).
  { apply lt_IZR. rewrite plus_IZR. simpl. lra. }
  assert (H2 : (k < j + 1)%Z).
  { apply lt_IZR. rewrite plus_IZR. simpl. lra. }
  lia.
Qed.

Lemma py_mod_zero (m : R) : m <> 0 -> py_mod 0 m = 0.
Proof.
  intro Hm. unfold py_mod.
  replace (0 / m) with 0 by (field; exact Hm).
  rewrite (Int_part_unique 0 0) by (simpl; lra).
  simpl. ring.
Qed.

Lemma py_mod_half (m : R) : 0 < m -> py_mod (m / 2) m = m / 2.
Proof.
  intro Hm. unfold py_mod.
  replace (m / 2 / m) with (1 / 2) by (field; lra).
  rewrite (Int_part_unique (1 / 2) 0) by (simpl; lra).
  simpl. ring.
Qed.

Lemma substr_in_circ : substr_in "circAngle" "target_circAngle" = true.
Proof. reflexivity. Qed.

Lemma nth_error_y_error (name : string) (y_pred : list (list R)) (y_true : list R)
    (i t : nat) (row : list R) (p yt : R) :
  nth_error y_pred i = Some row -> nth_error row t = Some p ->
  nth_error y_true i = Some yt ->
  exists err_row, nth_error (y_error name y_pred y_true) i = Some err_row /\
                  nth_error err_row t = Some (trial_error name p yt).
Proof.
  revert y_true i. induction y_pred as [| r y_pred IH]; intros y_true i Hrow Hp Hyt.
  - destruct i; discriminate.
  - destruct y_true as [| y y_true]; [destruct i; discriminate |].
    destruct i as [| i]; simpl in *.
    + inversion Hrow; inversion Hyt; subst.
      eexists; split; [reflexivity |].
      rewrite nth_error_map, Hp. reflexivity.
    + exact (IH y_true i Hrow Hp Hyt).
Qed.

(** C4: the error array computed by [_subregress] holds, for every trial
    [i] and time point [t], |pi - ((pred - true) mod 2 pi)| for a circular
    analysis (name containing 'circAngle') and |pred - true| otherwise. *)
Theorem y_error_formula (name : string) (y_pred : list (list R)) (y_true : list R)
    (i t : nat) (row : list R) (p yt : R) :
  nth_error y_pred i = Some row -> nth_error row t = Some p ->
  nth_error y_true i = Some yt ->
  exists err_row, nth_error (y_error name y_pred y_true) i = Some err_row /\
    nth_error err_row t =
      Some (if substr_in "circAngle" name
            then Rabs (PI - py_mod (p - yt) (2 * PI))
            else Rabs (p - yt)).
Proof.
  intros Hrow Hp Hyt.
  exact (nth_error_y_error name y_pred y_true i t row p yt Hrow Hp Hyt).
Qed.

Lemma y_error_formula_witness :
  nth_error [[0; PI]] 0%nat = Some [0; PI] /\ nth_error [0; PI] 1%nat = Some PI /\
  nth_error [0] 0%nat = Some 0 /\
  exists err_row, nth_error (y_error "target_circAngle" [[0; PI]] [0]) 0%nat = Some err_row /\
    nth_error err_row 1%nat =
      Some (if substr_in "circAngle" "target_circAngle"
            then Rabs (PI - py_mod (PI - 0) (2 * PI))
            else Rabs (PI - 0)).
Proof.
  split; [reflexivity | split; [reflexivity | split; [reflexivity |]]].
  apply (y_error_formula "target_circAngle" [[0; PI]] [0] 0 1 [0; PI] PI 0);
    reflexivity.
Defined.

(** C5 (code_bug): for true label 0 the circular error of [_subregress] is
    0 at prediction pi and pi at prediction 0, the reverse of the spec's
    symmetry property. *)
Theorem circ_error_reversed :
  trial_error "target_circAngle" PI 0 = 0 /\
  trial_error "target_circAngle" 0 0 = PI.
Proof.
  unfold trial_error. rewrite substr_in_circ.
  pose proof PI_RGT_0 as Hpi.
  split.
  - replace (PI - 0) with ((2 * PI) / 2) by field.
    rewrite py_mod_half by lra.
    replace (PI - 2 * PI / 2) with 0 by field.
    apply Rabs_R0.
  - replace (0 - 0) with 0 by ring.
    rewrite py_mod_zero by lra.
    replace (PI - 0) with PI by ring.
    apply Rabs_pos_eq. lra.
Qed.

End CircErrorFacts.

(* ------------------------------------------------------------------------- *)
(** ** Input validation of [_subregress] *)

Module RegressFacts.
Import Events Regress Samples.

Lemma col_length (name : string) (events : list event) (ys : list Q) :
  col name events = Ok ys -> length ys = length events.
Proof.
  unfold col. destruct (column name); intro H; inversion H.
  apply length_map.
Qed.

(** C7: once the factor and the label column are found, a prediction
    array whose number of trials differs from the number of true labels
    makes [_subregress] raise [ValueError], in either mode. *)
Theorem subregress_length_mismatch
    (repeated_spearman : list (list R) -> list Q -> list R)
    (y_pred : list (list R)) (events : list event) (name factor : string)
    (independent : bool) (kv : string * list Q) (y_true : list Q) :
  factors factor = Ok kv ->
  col name events = Ok y_true ->
  length y_pred <> length y_true ->
  _subregress repeated_spearman y_pred events name factor independent = Err ValueError.
Proof.
  intros Hf Hc Hlen. unfold _subregress.
  rewrite Hf. destruct kv as [key values]. simpl.
  rewrite Hc. simpl.
  apply Nat.eqb_neq in Hlen. rewrite Hlen. reflexivity.
Qed.


Lemma subregress_length_mismatch_witness :
  factors "visibility" = Ok ("detect_button", [0; 1; 2; 3]%Q) /\
  col "target_present" [ev_present_vis1] = Ok [1%Q] /\
  length ([] : list (list R)) <> length [1%Q] /\
  _subregress (fun _ _ => []) [] [ev_present_vis1] "target_present" "visibility" true
    = Err ValueError.
Proof.
  split; [reflexivity | split; [reflexivity | split; [discriminate |]]].
  apply (subregress_length_mismatch (fun _ _ => []) [] [ev_present_vis1]
           "target_present" "visibility" true ("detect_button", [0; 1; 2; 3]%Q) [1%Q]);
    [reflexivity | reflexivity | discriminate].
Defined.

End RegressFacts.

(* ------------------------------------------------------------------------- *)
(** ** Empty selection in [_run] *)

Module DecodingFacts.
Import Decoding Samples.

Lemma filter_all_false {A : Type} (f : A -> bool) (l : list A) :
  (forall x, In x l -> f x = false) -> filter f l = [].
Proof.
  induction l as [| x l IH]; intro H; simpl; [reflexivity |].
  rewrite (H x (or_introl eq_refl)).
  apply IH. intros y Hy. apply H. right. exact Hy.
Qed.

(** C3: when the condition column exists and every trial kept by the query
    has a NaN label, [_run] returns normally without fitting, scoring or
    saving anything. *)
Theorem run_no_eligible_trials (events : dataframe) (a : analysis)
    (cond : list (option Q)) :
  get_column events (condition a) = Ok cond ->
  (forall ii, In ii (query_sel events a) -> nth ii cond None = None) ->
  _run events a = Ok [].
Proof.
  intros Hc Hnan. unfold _run, selection.
  rewrite Hc. simpl.
  rewrite filter_all_false; [reflexivity |].
  intros ii Hin. rewrite (Hnan ii Hin). reflexivity.
Qed.


Lemma run_no_eligible_trials_witness :
  get_column events_all_nan (condition circ_analysis) = Ok [None; None] /\
  (forall ii, In ii (query_sel events_all_nan circ_analysis) ->
              nth ii [None; None] None = @None Q) /\
  _run events_all_nan circ_analysis = Ok [].
Proof.
  assert (Hn : forall ii, In ii (query_sel events_all_nan circ_analysis) ->
                          nth ii [None; None] None = @None Q).
  { intros ii Hin. simpl in Hin.
    destruct Hin as [<- | [<- | []]]; reflexivity. }
  split; [reflexivity | split; [exact Hn |]].
  exact (run_no_eligible_trials events_all_nan circ_analysis [None; None]
           eq_refl Hn).
Defined.

Lemma run_nonempty_fits (events : dataframe) (a : analysis) (sel : list nat) :
  selection events a = Ok sel -> sel <> [] ->
  _run events a = Ok [Fit sel; Score sel; Save "decod" (ana_name a);
                      Save "score" (ana_name a)].
Proof.
  intros Hs Hne. unfold _run. rewrite Hs. simpl.
  destruct sel; [contradiction | reflexivity].
Qed.

End DecodingFacts.

(* ------------------------------------------------------------------------- *)
(** ** Cells of [_subscore] *)

Module SubscoreFacts.
Import Events Subscore.
Local Open Scope nat_scope.

Lemma nth_overwrite {A : Type} (row : list A) (ii j : nat) (x d : A) :
  ii < length row ->
  nth j (firstn ii row ++ [x] ++ skipn (S ii) row) d =
    if Nat.eqb j ii then x else nth j row d.
Proof.
  intro Hii.
  assert (Hf : length (firstn ii row) = ii) by (rewrite length_firstn; lia).
  destruct (Nat.lt_trichotomy j ii) as [Hlt | [Heq | Hgt]].
  - rewrite app_nth1 by lia.
    rewrite nth_firstn.
    replace (Nat.eqb j ii) with false by (symmetry; apply Nat.eqb_neq; lia).
    replace (Nat.ltb j ii) with true by (symmetry; apply Nat.ltb_lt; lia).
    reflexivity.
  - subst j. rewrite app_nth2 by lia. rewrite Hf, Nat.sub_diag, Nat.eqb_refl.
    reflexivity.
  - rewrite app_nth2 by lia. rewrite Hf.
    replace (Nat.eqb j ii) with false by (symmetry; apply Nat.eqb_neq; lia).
    destruct (j - ii) as [| k] eqn:Hk; [lia |].
    cbn [app nth]. rewrite nth_skipn. f_equal. lia.
Qed.

Lemma length_overwrite {A : Type} (row : list A) (ii : nat) (x : A) :
  ii < length row ->
  length (firstn ii row ++ [x] ++ skipn (S ii) row) = length row.
Proof.
  intro Hii. rewrite !length_app, length_firstn, length_skipn. simpl. lia.
Qed.

Lemma set_col_shape (scores : list (list (option R))) (ii N : nat) (v : list R) :
  Forall (fun row => length row = N) scores -> ii < N ->
  length (set_col scores ii v) = length scores /\
  Forall (fun row => length row = N) (set_col scores ii v).
Proof.
  intros Hall Hii. unfold set_col.
  split.
  - rewrite length_map, length_combine, length_seq. lia.
  - generalize 0 as s. induction Hall as [| row scores Hrow Hall IH]; intro s;
      cbn [length seq combine map]; constructor.
    + rewrite length_overwrite by lia. exact Hrow.
    + apply IH.
Qed.

Lemma set_col_cell (scores : list (list (option R))) (ii N t j : nat) (v : list R) :
  Forall (fun row => length row = N) scores -> ii < N -> t < length scores ->
  cell (set_col scores ii v) t j =
    if Nat.eqb j ii then Some (nth t v 0%R) else cell scores t j.
Proof.
  intros Hall Hii. unfold cell, set_col.
  assert (Hgen : forall s, t < length scores ->
    nth j (nth t (map (fun '(t0, row) =>
                         firstn ii row ++ [Some (nth t0 v 0%R)] ++ skipn (S ii) row)
                      (combine (seq s (length scores)) scores)) []) None =
    if Nat.eqb j ii then Some (nth (s + t) v 0%R) else nth j (nth t scores []) None).
  { revert t. induction Hall as [| row scores Hrow Hall IH]; intros t s Ht;
      simpl in Ht; [lia |].
    destruct t as [| t]; cbn [length seq combine map nth].
    - rewrite nth_overwrite by lia. rewrite Nat.add_0_r. reflexivity.
    - rewrite IH by lia. rewrite Nat.add_succ_r. reflexivity. }
  intro Ht. exact (Hgen 0 Ht).
Qed.

Section Fill.
Variable scorer : list Q -> list (list R) -> list R.
Variables (name : string) (y_pred : list (list R)) (events : list event)
          (y_true key_col : list Q).


Lemma fill_levels_cells : forall (vals : list Q) (s N : nat)
    (scores : list (list (option R))),
  Forall (fun row => length row = N) scores -> s + length vals <= N ->
  let res := fill_levels scorer name y_pred events y_true key_col scores
               (combine (seq s (length vals)) vals) in
  length res = length scores /\
  Forall (fun row => length row = N) res /\
  forall t j, t < length scores ->
    cell res t j =
      match (if Nat.leb s j then nth_error vals (j - s) else None) with
      | Some value => level_cell scorer name y_pred events y_true key_col value t (cell scores t j)
      | None => cell scores t j
      end.
Proof.
  induction vals as [| value vals IH]; intros s N scores Hall Hle; simpl.
  - split; [reflexivity | split; [exact Hall |]].
    intros t j Ht. destruct (Nat.leb s j), (j - s); reflexivity.
  - set (step := match level_score scorer name y_pred events y_true key_col value with
                 | Some v => set_col scores s v
                 | None => scores
                 end).
    assert (Hstep : length step = length scores /\
                    Forall (fun row => length row = N) step /\
                    forall t j, t < length scores ->
                      cell step t j = if Nat.eqb j s
                                      then level_cell scorer name y_pred events y_true key_col value t (cell scores t j)
                                      else cell scores t j).
    { unfold step, level_cell.
      destruct (level_score scorer name y_pred events y_true key_col value) as [v |].
      - destruct (set_col_shape scores s N v Hall ltac:(simpl in Hle; lia))
          as [Hl Hf].
        split; [exact Hl | split; [exact Hf |]].
        intros t j Ht.
        rewrite (set_col_cell scores s N t j v Hall ltac:(simpl in Hle; lia) Ht).
        reflexivity.
      - split; [reflexivity | split; [exact Hall |]].
        intros t j Ht. destruct (Nat.eqb j s); reflexivity. }
    destruct Hstep as [Hl [Hf Hc]].
    simpl in Hle.
    destruct (IH (S s) N step Hf ltac:(lia)) as [Hl' [Hf' Hc']].
    fold step.
    split; [congruence | split; [exact Hf' |]].
    intros t j Ht.
    rewrite Hc' by congruence. rewrite !Hc by exact Ht.
    destruct (Nat.eqb_spec j s) as [-> | Hne].
    + replace (Nat.leb (S s) s) with false by (symmetry; apply Nat.leb_gt; lia).
      rewrite Nat.leb_refl, Nat.sub_diag. reflexivity.
    + destruct (Nat.leb_spec (S s) j) as [Hsj | Hsj].
      * replace (Nat.leb s j) with true by (symmetry; apply Nat.leb_le; lia).
        replace (j - s) with (S (j - S s)) by lia. reflexivity.
      * replace (Nat.leb s j) with false by (symmetry; apply Nat.leb_gt; lia).
        reflexivity.
Qed.

End Fill.

Lemma nth_repeat_None (n j : nat) : nth j (repeat (@None R) n) None = None.
Proof.
  revert j. induction n as [| n IH]; intro j; destruct j; simpl; auto.
Qed.

Lemma cell_nan_matrix (nt nv t j : nat) :
  cell (repeat (repeat None nv) nt) t j = None.
Proof.
  unfold cell. revert t. induction nt as [| nt IH]; intro t.
  - destruct t; destruct j; reflexivity.
  - destruct t as [| t]; simpl; [apply nth_repeat_None | apply IH].
Qed.

Lemma Forall_nan_rows (nt nv : nat) :
  Forall (fun row => length row = nv) (repeat (repeat (@None R) nv) nt).
Proof.
  apply Forall_forall. intros row Hrow.
  apply repeat_spec in Hrow. subst row. apply repeat_length.
Qed.

Lemma subscore_cells (scorer : list Q -> list (list R) -> list R)
    (y_pred : list (list R)) (events : list event) (name factor key : string)
    (values y_true key_col : list Q) :
  factors factor = Ok (key, values) ->
  col name events = Ok y_true -> col key events = Ok key_col ->
  exists scores, _subscore scorer y_pred events name factor = Ok scores /\
    length scores = n_times_of y_pred /\
    forall t ii value, t < n_times_of y_pred -> nth_error values ii = Some value ->
      cell scores t ii =
        level_cell scorer name y_pred events y_true key_col value t None.
Proof.
  intros Hf Hc Hk. unfold _subscore.
  rewrite Hf. cbn [bind]. rewrite Hc. cbn [bind]. rewrite Hk. cbn [bind].
  eexists. split; [reflexivity |].
  destruct (fill_levels_cells scorer name y_pred events y_true key_col values 0
              (length values) (repeat (repeat None (length values)) (n_times_of y_pred))
              (Forall_nan_rows _ _) ltac:(lia)) as [Hl [_ Hc']].
  split; [rewrite Hl; apply repeat_length |].
  intros t ii value Ht Hv.
  rewrite Hc' by (rewrite repeat_length; exact Ht).
  rewrite Nat.sub_0_r, Hv. simpl Nat.leb. cbv iota.
  rewrite cell_nan_matrix. reflexivity.
Qed.

End SubscoreFacts.

(* ------------------------------------------------------------------------- *)
(** ** Minimum trial count and the absent-trial rule *)

Module MinTrialFacts.
Import Events Subscore Pipeline SubscoreFacts Samples.
Local Open Scope nat_scope.

Lemma In_where_from (mask : list bool) : forall k i,
  In i (where_from k mask) <->
  k <= i /\ i < k + length mask /\ nth (i - k) mask false = true.
Proof.
  induction mask as [| b mask IH]; intros k i; simpl.
  - split; [intros [] | lia].
  - destruct b; simpl; rewrite IH.
    + split.
      * intros [<- | [H1 [H2 H3]]]; [rewrite Nat.sub_diag; repeat split; lia |].
        repeat split; try lia.
        replace (i - k) with (S (i - S k)) by lia. exact H3.
      * intros [H1 [H2 H3]].
        destruct (Nat.eq_dec k i) as [-> | Hne]; [left; reflexivity | right].
        repeat split; try lia.
        replace (i - k) with (S (i - S k)) in H3 by lia. exact H3.
    + split.
      * intros [H1 [H2 H3]]. repeat split; try lia.
        replace (i - k) with (S (i - S k)) by lia. exact H3.
      * intros [H1 [H2 H3]].
        destruct (Nat.eq_dec k i) as [<- | Hne].
        -- rewrite Nat.sub_diag in H3. discriminate.
        -- repeat split; try lia.
           replace (i - k) with (S (i - S k)) in H3 by lia. exact H3.
Qed.

Lemma In_np_where (mask : list bool) (i : nat) :
  In i (np_where mask) <-> i < length mask /\ nth i mask false = true.
Proof.
  unfold np_where. rewrite In_where_from. rewrite Nat.sub_0_r. simpl.
  split; [intros [_ [H1 H2]]; split; assumption | intros [H1 H2]; repeat split; auto; lia].
Qed.

Lemma In_np_where_map {A : Type} (f : A -> bool) (xs : list A) (d : A) (i : nat) :
  In i (np_where (map f xs)) <-> i < length xs /\ f (nth i xs d) = true.
Proof.
  rewrite In_np_where, length_map.
  split; intros [Hi H]; split; try exact Hi.
  - rewrite (nth_indep _ _ (f d)) in H by (rewrite length_map; exact Hi).
    rewrite map_nth in H. exact H.
  - rewrite (nth_indep _ _ (f d)) by (rewrite length_map; exact Hi).
    rewrite map_nth. exact H.
Qed.


(** C1 (code_bug): for [target_present], visibility level 1 of
    [events_cx] has 4 trials of its own; with the absent trial its subset
    has 5 trials and 2 distinct labels. [_subscore], which checks the
    subset, scores the level; [_subscore_pipeline] checks [len(sel) < 5]
    on the 4 own trials before adding the absent trial (lines 49-56) and
    returns the NaN matrix, whatever [subscore] computes. *)
Theorem pipeline_nan_at_five_trial_union :
  length (level_sel "target_present" events_cx [1; 1; 1; 1; 0]%Q 1%Q) = 5 /\
  n_unique (take 0%Q [1; 1; 1; 1; 0]%Q
              (level_sel "target_present" events_cx [1; 1; 1; 1; 0]%Q 1%Q)) = 2 /\
  col "target_present" events_cx = Ok [1; 1; 1; 1; 0]%Q /\
  col "detect_button" events_cx = Ok [1; 1; 1; 1; 0]%Q /\
  (exists scores,
     _subscore (fun _ _ => [0%R]) y_pred_cx events_cx "target_present" "visibility"
       = Ok scores /\ cell scores 0 1 = Some 0%R) /\
  (forall (subscore : list nat -> list (list R)) (n_train n_test : nat),
     pipeline_level subscore n_train n_test "target_present" events_cx 1
       = repeat (repeat None n_test) n_train).
Proof.
  split; [reflexivity | split; [reflexivity | split; [reflexivity | split; [reflexivity |]]]].
  split.
  - eexists. split; [reflexivity |]. vm_compute. reflexivity.
  - intros subscore n_train n_test. reflexivity.
Qed.

(** C2 (code_bug): in [_subscore_pipeline] the minimum count is checked
    on the level's own trials before the absent trials are added: level 1
    of [events_cx] together with the absent trial has 5 trials, yet the
    level is skipped and left NaN, and no union is ever scored for it. *)
Lemma pipeline_count_before_absent_union :
  length (np_where (map (fun e => Qeq_bool (detect_button e) 1) events_cx)
          ++ absent_trials events_cx) = 5 /\
  pipeline_sel "target_present" events_cx 1 = None /\
  pipeline_level (fun _ => [[0%R]]) 1 1 "target_present" events_cx 1 = [[None]].
Proof.
  split; [reflexivity | split; reflexivity].
Qed.

End MinTrialFacts.

(* ------------------------------------------------------------------------- *)
(** ** Absent-target trials do not reach the correlations *)

Module NoninterferenceFacts.
Import Events Regress Samples MinTrialFacts.
Local Open Scope nat_scope.

Lemma existsb_eqb_In (i : nat) (l : list nat) :
  existsb (Nat.eqb i) l = true <-> In i l.
Proof.
  rewrite existsb_exists. split.
  - intros [x [Hx Heq]]. apply Nat.eqb_eq in Heq. subst. exact Hx.
  - intro H. exists i. split; [exact H | apply Nat.eqb_refl].
Qed.

Lemma filter_where_from_ext (g : nat -> bool) : forall m1 m2 k,
  length m1 = length m2 ->
  (forall j, j < length m1 -> g (k + j) = true -> nth j m1 false = nth j m2 false) ->
  filter g (where_from k m1) = filter g (where_from k m2).
Proof.
  induction m1 as [| b1 m1 IH]; intros m2 k Hl H;
    destruct m2 as [| b2 m2]; simpl in Hl; try discriminate; [reflexivity |].
  assert (IH' : filter g (where_from (S k) m1) = filter g (where_from (S k) m2)).
  { apply IH; [lia |]. intros j Hj Hg.
    apply (H (S j)); [simpl; lia | rewrite <- Hg; f_equal; lia]. }
  destruct (g k) eqn:Hg.
  - assert (Hb : b1 = b2).
    { apply (H 0); [simpl; lia | rewrite Nat.add_0_r; exact Hg]. }
    subst b2. destruct b1; simpl; [rewrite Hg, IH'; reflexivity | exact IH'].
  - destruct b1, b2; simpl; rewrite ?Hg; exact IH'.
Qed.

Lemma take_ext_in {A : Type} (d : A) (l1 l2 : list A) (sel : list nat) :
  (forall i, In i sel -> nth i l1 d = nth i l2 d) -> take d l1 sel = take d l2 sel.
Proof.
  intro H. unfold take. apply map_ext_in. exact H.
Qed.

Lemma nth_y_error (name : string) : forall (y : list (list R)) (t : list R) (i : nat),
  length y = length t -> i < length y ->
  nth i (CircError.y_error name y t) [] =
    map (fun p => CircError.trial_error name p (nth i t 0%R)) (nth i y []).
Proof.
  induction y as [| r y IH]; intros t i Hl Hi; simpl in Hi; [lia |].
  destruct t as [| x t]; simpl in Hl; [discriminate |].
  destruct i as [| i]; [reflexivity |].
  exact (IH t i ltac:(lia) ltac:(lia)).
Qed.

Lemma n_times_of_rect (y1 y2 : list (list R)) (nt : nat) :
  Forall (fun r => length r = nt) y1 -> Forall (fun r => length r = nt) y2 ->
  length y1 = length y2 -> n_times_of y1 = n_times_of y2.
Proof.
  intros H1 H2 Hl.
  destruct H1 as [| r1 y1 Hr1 _]; destruct H2 as [| r2 y2 Hr2 _];
    simpl in Hl; try discriminate; simpl; congruence.
Qed.

Section TwoRuns.

(** Two trial tables with the same trials in the same order, equal on
    every present-target trial; absent trials may differ arbitrarily except
    in their [target_present] flag. *)
Variables e1 e2 : list event.
Hypothesis Hlen : length e1 = length e2.
Hypothesis Hpres : forall i, i < length e1 ->
  target_present (nth i e1 ev_absent0) = target_present (nth i e2 ev_absent0).
Hypothesis Hsame : forall i, i < length e1 ->
  target_present (nth i e1 ev_absent0) = true -> nth i e1 ev_absent0 = nth i e2 ev_absent0.

Lemma present_mask_eq : map target_present e1 = map target_present e2.
Proof.
  apply (nth_ext _ _ (target_present ev_absent0) (target_present ev_absent0)).
  - rewrite !length_map. exact Hlen.
  - intros i Hi. rewrite length_map in Hi. rewrite !map_nth. exact (Hpres i Hi).
Qed.

Lemma in_present_sel (i : nat) :
  In i (np_where (map target_present e2)) ->
  i < length e1 /\ target_present (nth i e1 ev_absent0) = true.
Proof.
  rewrite <- present_mask_eq. intro H.
  apply (In_np_where_map target_present e1 ev_absent0 i) in H. exact H.
Qed.

Lemma map_nth_present {A : Type} (f : event -> A) (i : nat) (d : A) :
  i < length e1 -> target_present (nth i e1 ev_absent0) = true ->
  nth i (map f e1) d = nth i (map f e2) d.
Proof.
  intros Hi Hp.
  rewrite !(nth_indep _ d (f ev_absent0)) by (rewrite length_map; lia).
  rewrite !map_nth. f_equal. exact (Hsame i Hi Hp).
Qed.

Lemma regress_sel_eq (f : event -> Q) (values : list Q) :
  regress_sel e1 (map f e1) values = regress_sel e2 (map f e2) values.
Proof.
  unfold regress_sel, intersect1d. rewrite present_mask_eq.
  apply filter_ext_in. intros i Hi.
  destruct (in_present_sel i Hi) as [Hi1 Hp].
  apply Bool.eq_iff_eq_true. rewrite !existsb_eqb_In.
  rewrite !(In_np_where_map _ _ (f ev_absent0)), !length_map, Hlen.
  rewrite !map_nth, (Hsame i Hi1 Hp). reflexivity.
Qed.

Lemma in_regress_sel (f : event -> Q) (values : list Q) (i : nat) :
  In i (regress_sel e2 (map f e2) values) ->
  i < length e1 /\ target_present (nth i e1 ev_absent0) = true.
Proof.
  unfold regress_sel, intersect1d. rewrite filter_In. intros [H _].
  exact (in_present_sel i H).
Qed.

Lemma nth_Q2R_present (f : event -> Q) (i : nat) :
  i < length e1 -> target_present (nth i e1 ev_absent0) = true ->
  nth i (map Q2R (map f e1)) 0%R = nth i (map Q2R (map f e2)) 0%R.
Proof.
  intros Hi Hp.
  rewrite !(nth_indep _ 0%R (Q2R (f ev_absent0))) by (rewrite !length_map; lia).
  rewrite !map_nth, (Hsame i Hi Hp). reflexivity.
Qed.

Lemma subregress_ni (repeated_spearman : list (list R) -> list Q -> list R)
    (y1 y2 : list (list R)) (name factor : string) (independent : bool) (nt : nat) :
  Forall (fun r => length r = nt) y1 -> Forall (fun r => length r = nt) y2 ->
  length y1 = length y2 ->
  (forall i, i < length e1 -> target_present (nth i e1 ev_absent0) = true ->
             nth i y1 [] = nth i y2 []) ->
  _subregress repeated_spearman y1 e1 name factor independent =
  _subregress repeated_spearman y2 e2 name factor independent.
Proof.
  intros Hr1 Hr2 Hyl Hy.
  unfold _subregress.
  destruct (factors factor) as [[key values] | ex] eqn:Hf; cbn [bind]; [| reflexivity].
  unfold col.
  destruct (column name) as [fl |] eqn:Hcn; cbn [bind]; [| reflexivity].
  rewrite !length_map, <- Hyl, <- Hlen.
  destruct (negb (Nat.eqb (length y1) (length e1))) eqn:Hchk; [reflexivity |].
  apply negb_false_iff, Nat.eqb_eq in Hchk.
  rewrite (n_times_of_rect y1 y2 nt Hr1 Hr2 Hyl).
  destruct (column key) as [fk |]; cbn [bind]; [| reflexivity].
  rewrite (regress_sel_eq fk values).
  set (sel := regress_sel e2 (map fk e2) values).
  assert (Hsel : forall i, In i sel ->
                 i < length e1 /\ target_present (nth i e1 ev_absent0) = true)
    by (intros i Hi; exact (in_regress_sel fk values i Hi)).
  assert (Herr : take [] (CircError.y_error name y1 (map Q2R (map fl e1))) sel =
                 take [] (CircError.y_error name y2 (map Q2R (map fl e2))) sel).
  { apply take_ext_in. intros i Hi. destruct (Hsel i Hi) as [Hi1 Hp].
    rewrite !nth_y_error by (rewrite ?length_map; lia).
    rewrite (Hy i Hi1 Hp).
    rewrite (nth_Q2R_present fl i Hi1 Hp). reflexivity. }
  assert (Hkey : forall l, (forall i, In i l -> In i sel) ->
                 take 0%Q (map fk e1) l = take 0%Q (map fk e2) l).
  { intros l Hl. apply take_ext_in. intros i Hi.
    destruct (Hsel i (Hl i Hi)) as [Hi1 Hp].
    exact (map_nth_present fk i 0%Q Hi1 Hp). }
  destruct independent.
  - cbn [bind].
    destruct (column (if String.eqb factor "visibility"
                      then "target_contrast" else "detect_button")) as [fc |];
      cbn [bind]; [| reflexivity].
    f_equal. f_equal. unfold independent_rows.
    apply map_ext. intro cov_value.
    assert (Hcov : intersect1d (np_where (map (fun x => Qeq_bool x cov_value) (map fc e1))) sel =
                   intersect1d (np_where (map (fun x => Qeq_bool x cov_value) (map fc e2))) sel).
    { unfold intersect1d, np_where. apply filter_where_from_ext.
      - rewrite !length_map. exact Hlen.
      - intros j Hj Hg. simpl in Hg. apply existsb_eqb_In in Hg.
        destruct (Hsel j Hg) as [Hj1 Hp].
        rewrite !map_map.
        exact (map_nth_present (fun x => Qeq_bool (fc x) cov_value) j false Hj1 Hp). }
    rewrite Hcov.
    set (cov_sel := intersect1d _ sel).
    assert (Hsub : forall i, In i cov_sel -> In i sel)
      by (intros i Hi; unfold cov_sel, intersect1d in Hi;
          apply filter_In in Hi; apply existsb_eqb_In; exact (proj2 Hi)).
    destruct (Nat.leb (length cov_sel) 5); [reflexivity |].
    f_equal. f_equal.
    + apply take_ext_in. intros i Hi. apply Hsub in Hi.
      destruct (Hsel i Hi) as [Hi1 Hp].
      rewrite !nth_y_error by (rewrite ?length_map; lia).
      rewrite (Hy i Hi1 Hp).
      rewrite (nth_Q2R_present fl i Hi1 Hp). reflexivity.
    + apply Hkey. exact Hsub.
  - rewrite Herr, (Hkey sel (fun i H => H)). reflexivity.
Qed.

Lemma correlate_ni (repeated_spearman : list (list R) -> list Q -> list R)
    (P1 P2 : list (list (list (list R)))) :
  Forall2 (Forall2 (fun a b => forall k, k < length e1 ->
                       target_present (nth k e1 ev_absent0) = true ->
                       nth k a [] = nth k b [])) P1 P2 ->
  correlate_subject repeated_spearman P1 e1 = correlate_subject repeated_spearman P2 e2.
Proof.
  intro HP. unfold correlate_subject. cbv zeta.
  rewrite present_mask_eq.
  set (sel := np_where (map target_present e2)).
  assert (Hsel : forall i, In i sel ->
                 i < length e1 /\ target_present (nth i e1 ev_absent0) = true)
    by (intros i Hi; exact (in_present_sel i Hi)).
  assert (Hv : take 0%Q (map detect_button e1) sel = take 0%Q (map detect_button e2) sel).
  { apply take_ext_in. intros i Hi. destruct (Hsel i Hi) as [Hi1 Hp].
    exact (map_nth_present detect_button i 0%Q Hi1 Hp). }
  assert (Ht : map (map (fun trials => take [] trials sel)) P1 =
               map (map (fun trials => take [] trials sel)) P2).
  { induction HP as [| r1 r2 P1 P2 Hr HP IH]; [reflexivity |].
    cbn [map]. f_equal; [| exact IH].
    induction Hr as [| a b r1 r2 Hab Hr IHr]; [reflexivity |].
    cbn [map]. f_equal; [| exact IHr].
    apply take_ext_in. intros k Hk. destruct (Hsel k Hk) as [Hk1 Hp].
    exact (Hab k Hk1 Hp). }
  rewrite Hv, Ht. reflexivity.
Qed.

End TwoRuns.

(** C10: the correlation arrays of [_subregress] (both modes) and of
    [_correlate] are computed from present-target trials only: two inputs
    with the same trials and target-present flags, equal on every present
    trial, give identical results, whatever the predictions, labels and
    factor values of the absent trials. *)
Theorem correlation_ignores_absent_trials (e1 e2 : list event) :
  length e1 = length e2 ->
  (forall i, i < length e1 ->
     target_present (nth i e1 ev_absent0) = target_present (nth i e2 ev_absent0)) ->
  (forall i, i < length e1 -> target_present (nth i e1 ev_absent0) = true ->
     nth i e1 ev_absent0 = nth i e2 ev_absent0) ->
  (forall (repeated_spearman : list (list R) -> list Q -> list R)
          (y1 y2 : list (list R)) (name factor : string) (independent : bool) (nt : nat),
     Forall (fun r => length r = nt) y1 -> Forall (fun r => length r = nt) y2 ->
     length y1 = length y2 ->
     (forall i, i < length e1 -> target_present (nth i e1 ev_absent0) = true ->
                nth i y1 [] = nth i y2 []) ->
     _subregress repeated_spearman y1 e1 name factor independent =
     _subregress repeated_spearman y2 e2 name factor independent) /\
  (forall (repeated_spearman : list (list R) -> list Q -> list R)
          (P1 P2 : list (list (list (list R)))),
     Forall2 (Forall2 (fun a b => forall k, k < length e1 ->
                          target_present (nth k e1 ev_absent0) = true ->
                          nth k a [] = nth k b [])) P1 P2 ->
     correlate_subject repeated_spearman P1 e1 = correlate_subject repeated_spearman P2 e2).
Proof.
  intros Hlen Hpres Hsame. split.
  - intros. eapply subregress_ni; eassumption.
  - intros. apply correlate_ni; assumption.
Qed.

Lemma correlation_ignores_absent_trials_witness :
  let e2 := [ev_present1; ev_present1; ev_present1; ev_present1; ev_absent_other] in
  length events_cx = length e2 /\
  (forall i, i < length events_cx ->
     target_present (nth i events_cx ev_absent0) = target_present (nth i e2 ev_absent0)) /\
  (forall i, i < length events_cx -> target_present (nth i events_cx ev_absent0) = true ->
     nth i events_cx ev_absent0 = nth i e2 ev_absent0) /\
  (forall (repeated_spearman : list (list R) -> list Q -> list R)
          (y1 y2 : list (list R)) (name factor : string) (independent : bool) (nt : nat),
     Forall (fun r => length r = nt) y1 -> Forall (fun r => length r = nt) y2 ->
     length y1 = length y2 ->
     (forall i, i < length events_cx ->
                target_present (nth i events_cx ev_absent0) = true ->
                nth i y1 [] = nth i y2 []) ->
     _subregress repeated_spearman y1 events_cx name factor independent =
     _subregress repeated_spearman y2 e2 name factor independent) /\
  (forall (repeated_spearman : list (list R) -> list Q -> list R)
          (P1 P2 : list (list (list (list R)))),
     Forall2 (Forall2 (fun a b => forall k, k < length events_cx ->
                          target_present (nth k events_cx ev_absent0) = true ->
                          nth k a [] = nth k b [])) P1 P2 ->
     correlate_subject repeated_spearman P1 events_cx =
     correlate_subject repeated_spearman P2 e2).
Proof.
  intro e2.
  assert (H1 : length events_cx = length e2) by reflexivity.
  assert (H2 : forall i, i < length events_cx ->
     target_present (nth i events_cx ev_absent0) = target_present (nth i e2 ev_absent0)).
  { intros i Hi. simpl in Hi. do 5 (destruct i as [| i]; [reflexivity |]). lia. }
  assert (H3 : forall i, i < length events_cx ->
     target_present (nth i events_cx ev_absent0) = true ->
     nth i events_cx ev_absent0 = nth i e2 ev_absent0).
  { intros i Hi. simpl in Hi.
    do 4 (destruct i as [| i]; [reflexivity |]).
    destruct i as [| i]; [discriminate | lia]. }
  split; [exact H1 | split; [exact H2 | split; [exact H3 |]]].
  exact (correlation_ignores_absent_trials events_cx e2 H1 H2 H3).
Defined.
End NoninterferenceFacts.

(* ------------------------------------------------------------------------- *)
(** ** Independent mode of [_subregress] *)

Module IndependentFacts.
Import Events Regress Samples.

(** C8 (code_bug): with [factor = 'visibility'] the confound column is
    [target_contrast] but its levels are taken from [factors['visibility']]
    ([0, 1, 2, 3]). On [events_c8] only the contrast-1 trials (6 to 11)
    fall in a level; the six contrast-0.5 trials are in none, and the
    result is the correlation of the contrast-1 trials alone. *)
Theorem independent_mode_uses_factor_levels
    (repeated_spearman : list (list R) -> list Q -> list R) :
  _subregress repeated_spearman y_pred_c8 events_c8 "target_present" "visibility" true =
  Ok (nanmean_axis0
        [[None];
         map Some (repeated_spearman
                     (take [] (CircError.y_error "target_present" y_pred_c8
                                 (map Q2R (repeat 1%Q 12)))
                           [6; 7; 8; 9; 10; 11]%nat)
                     [0; 1; 2; 3; 2; 3]%Q);
         [None]; [None]] 1).
Proof.
  reflexivity.
Qed.

End IndependentFacts.

(* ------------------------------------------------------------------------- *)
(** ** Time windows, first sample after a time, centering *)

Module TimeAxisFacts.
Import Events TimeAxis.
Local Open Scope nat_scope.

Lemma In_toi_sel (times : list Q) (lo hi : Q) (i : nat) :
  In i (toi_sel times lo hi) <->
  i < length times /\ (lo <= nth i times 0%Q)%Q /\ (nth i times 0%Q <= hi)%Q.
Proof.
  unfold toi_sel. rewrite (MinTrialFacts.In_np_where_map _ times 0%Q i).
  rewrite andb_true_iff, !Qle_bool_iff. tauto.
Qed.

(** The sample indices averaged over a time window ([toi_sel], as on lines
    77, 302, 550 and 557) have no hole: on a sorted time axis, any index
    between two selected indices is selected too. *)
Theorem toi_sel_contiguous (times : list Q) (lo hi : Q) (i j k : nat) :
  (forall a b, a <= b -> b < length times -> (nth a times 0%Q <= nth b times 0%Q)%Q) ->
  In i (toi_sel times lo hi) -> In k (toi_sel times lo hi) ->
  i <= j -> j <= k -> In j (toi_sel times lo hi).
Proof.
  intros Hsorted Hi Hk Hij Hjk.
  apply In_toi_sel in Hi as [Hi [Hlo _]].
  apply In_toi_sel in Hk as [Hk [_ Hhi]].
  apply In_toi_sel. split; [lia | split].
  - apply (Qle_trans _ _ _ Hlo). apply Hsorted; lia.
  - apply (Qle_trans _ _ _ (Hsorted j k Hjk Hk) Hhi).
Qed.

Lemma toi_sel_contiguous_witness :
  (forall a b, a <= b -> b < length [0; 1; 2]%Q ->
     (nth a [0; 1; 2]%Q 0%Q <= nth b [0; 1; 2]%Q 0%Q)%Q) /\
  In 0 (toi_sel [0; 1; 2]%Q 0 2) /\ In 2 (toi_sel [0; 1; 2]%Q 0 2) /\
  In 1 (toi_sel [0; 1; 2]%Q 0 2).
Proof.
  assert (Hs : forall a b, a <= b -> b < length [0; 1; 2]%Q ->
     (nth a [0; 1; 2]%Q 0%Q <= nth b [0; 1; 2]%Q 0%Q)%Q).
  { intros a b Hab Hb. simpl in Hb.
    destruct b as [| [| [| b]]]; destruct a as [| [| [| a]]]; try lia;
      apply Qle_bool_iff; reflexivity. }
  split; [exact Hs | split; [simpl; tauto | split; [simpl; tauto |]]].
  apply (toi_sel_contiguous [0; 1; 2]%Q 0 2 0 1 2); [exact Hs | simpl; tauto | simpl; tauto | lia | lia].
Defined.

Lemma where_from_head (mask : list bool) : forall k i rest,
  where_from k mask = i :: rest ->
  k <= i /\ i < k + length mask /\ nth (i - k) mask false = true /\
  forall j, k <= j -> j < i -> nth (j - k) mask false = false.
Proof.
  induction mask as [| b mask IH]; intros k i rest H; simpl in H.
  - discriminate.
  - destruct b.
    + injection H as <- _. rewrite Nat.sub_diag. simpl.
      repeat split; [lia | lia | intros j Hj1 Hj2; lia].
    + destruct (IH (S k) i rest H) as [H1 [H2 [H3 H4]]].
      simpl. repeat split; [lia | lia | |].
      * replace (i - k) with (S (i - S k)) by lia. exact H3.
      * intros j Hj1 Hj2. destruct (Nat.eq_dec j k) as [-> | Hne].
        -- rewrite Nat.sub_diag. reflexivity.
        -- replace (j - k) with (S (j - S k)) by lia. apply H4; lia.
Qed.

(** [np.where(times >= x)[0][0]] (lines 355, 548, 603) is the first
    sample whose time reaches [x]: it is in range, its time is at least
    [x], and every earlier sample is before [x]. *)
Theorem first_at_least_first (times : list Q) (x : Q) (i : nat) :
  first_at_least times x = Some i ->
  i < length times /\ (x <= nth i times 0%Q)%Q /\
  forall j, j < i -> (nth j times 0%Q < x)%Q.
Proof.
  unfold first_at_least, np_where.
  destruct (where_from 0 (map (fun t => Qle_bool x t) times)) as [| i' rest] eqn:E;
    intro H; [discriminate |].
  injection H as <-.
  destruct (where_from_head _ 0 i' rest E) as [_ [H2 [H3 H4]]].
  rewrite length_map in H2. rewrite Nat.sub_0_r in H3.
  split; [lia | split].
  - rewrite (nth_indep _ _ (Qle_bool x 0%Q)) in H3 by (rewrite length_map; lia).
    rewrite map_nth in H3. apply Qle_bool_iff. exact H3.
  - intros j Hj. specialize (H4 j (Nat.le_0_l j) Hj). rewrite Nat.sub_0_r in H4.
    rewrite (nth_indep _ _ (Qle_bool x 0%Q)) in H4 by (rewrite length_map; lia).
    rewrite map_nth in H4. apply Qnot_le_lt. intro Hle.
    apply Qle_bool_iff in Hle. congruence.
Qed.

Lemma first_at_least_first_witness :
  first_at_least [0; 1#10; 1#5]%Q (1#10) = Some 1 /\
  1 < length [0; 1#10; 1#5]%Q /\ (1#10 <= nth 1 [0; 1#10; 1#5]%Q 0%Q)%Q /\
  forall j, j < 1 -> (nth j [0; 1#10; 1#5]%Q 0%Q < 1#10)%Q.
Proof.
  split; [reflexivity |].
  apply (first_at_least_first [0; 1#10; 1#5]%Q (1#10) 1). reflexivity.
Defined.

(** [np.where(times >= x)[0][0]] raises [IndexError] exactly when every
    sample time is below [x]. *)
Theorem first_at_least_none (times : list Q) (x : Q) :
  first_at_least times x = None <-> Forall (fun t => (t < x)%Q) times.
Proof.
  unfold first_at_least, np_where. generalize 0.
  induction times as [| t times IH]; intro k; simpl.
  - split; intros _; [constructor | reflexivity].
  - destruct (Qle_bool x t) eqn:Ht.
    + split; [discriminate |]. intro HF. inversion HF as [| ? ? Hlt _]; subst.
      apply Qle_bool_iff in Ht. exfalso. apply (Qlt_not_le _ _ Hlt Ht).
    + rewrite (IH (S k)). split.
      * intro HF. constructor; [| exact HF].
        apply Qnot_le_lt. intro Hle. apply Qle_bool_iff in Hle. congruence.
      * intro HF. inversion HF; assumption.
Qed.

Lemma roll_nth {A : Type} (k : nat) (row : list A) (d : A) (j : nat) :
  j < length row ->
  nth j (roll k row) d =
  nth ((j + (length row - k mod length row)) mod length row) row d.
Proof.
  intro Hj. unfold roll.
  destruct (length row) as [| n'] eqn:En; [lia |].
  set (n := S n') in *. set (s := k mod n).
  assert (Hs : s < n) by (apply Nat.mod_upper_bound; lia).
  assert (Hlen : length (skipn (n - s) row) = s) by (rewrite length_skipn; lia).
  destruct (Nat.lt_ge_cases j s) as [Hjs | Hjs].
  - rewrite app_nth1 by lia. rewrite nth_skipn.
    rewrite Nat.mod_small by lia. f_equal. lia.
  - rewrite app_nth2 by lia. rewrite Hlen. rewrite nth_firstn.
    replace (Nat.ltb (j - s) (n - s)) with true by (symmetry; apply Nat.ltb_lt; lia).
    replace (j + (n - s)) with ((j - s) + 1 * n) by lia.
    rewrite Nat.Div0.mod_add. rewrite Nat.mod_small by lia. reflexivity.
Qed.

Lemma nth_map_nil {A B : Type} (f : list A -> list B) (l : list (list A)) (s : nat) :
  f [] = [] -> nth s (map f l) [] = f (nth s l []).
Proof.
  intro Hf. revert s. induction l as [| x l IH]; intros [| s]; simpl; auto.
Qed.

(** Centering in [_duration_toi] (line 300) only moves samples around:
    each centered row is a permutation of the aligned row. *)
Theorem center_rows_permutation (times : list Q) (scores : list (list (list R)))
    (s tr : nat) :
  Permutation (nth tr (nth s (center_rows times scores) []) [])
              (nth tr (nth s scores []) []).
Proof.
  unfold center_rows.
  rewrite nth_map_nil by reflexivity.
  destruct (Nat.lt_ge_cases tr (length (nth s scores []))) as [H | H].
  - rewrite (nth_indep _ _ (roll (length times / 2) [])) by (rewrite length_map; exact H).
    rewrite map_nth. unfold roll at 1.
    destruct (length (nth tr (nth s scores []) [])) as [| n]; [reflexivity |].
    rewrite Permutation_app_comm. rewrite firstn_skipn. reflexivity.
  - rewrite !nth_overflow by (rewrite ?length_map; exact H). reflexivity.
Qed.

(** After centering (line 300), the sample at index [len(times) // 2],
    the one where [roll_times] (line 388) is zero, is the aligned row's
    sample 0 (lag zero). *)
Theorem center_rows_lag_zero (times : list Q) (scores : list (list (list R)))
    (s tr : nat) :
  0 < length times ->
  length (nth tr (nth s scores []) []) = length times ->
  nth (length times / 2) (nth tr (nth s (center_rows times scores) []) []) 0%R =
    nth 0 (nth tr (nth s scores []) []) 0%R /\
  (nth (length times / 2) (roll_times times) 0%Q == 0)%Q.
Proof.
  intros Hn Hrow. unfold center_rows.
  assert (Hlt : length times / 2 < length times) by (apply Nat.div_lt; lia).
  split.
  - rewrite nth_map_nil by reflexivity.
    assert (Htr : tr < length (nth s scores [])).
    { destruct (Nat.lt_ge_cases tr (length (nth s scores []))) as [H | H]; [exact H |].
      rewrite nth_overflow in Hrow by exact H. simpl in Hrow. lia. }
    rewrite (nth_indep _ _ (roll (length times / 2) [])) by (rewrite length_map; exact Htr).
    rewrite map_nth. rewrite roll_nth by lia. rewrite Hrow.
    rewrite Nat.mod_small with (a := length times / 2) by exact Hlt.
    replace (length times / 2 + (length times - length times / 2)) with (0 + 1 * length times)
      by lia.
    rewrite Nat.Div0.mod_add. rewrite Nat.mod_small by lia. reflexivity.
  - unfold roll_times.
    set (f := fun t => (t - nth (length times / 2) times 0%Q)%Q).
    rewrite (nth_indep _ _ (f 0%Q)) by (rewrite length_map; exact Hlt).
    rewrite map_nth. unfold f. ring.
Qed.

Lemma center_rows_lag_zero_witness :
  0 < length [0; 1; 2]%Q /\
  length (nth 0 (nth 0 [[[5; 6; 7]%R]] []) []) = length [0; 1; 2]%Q /\
  nth (length [0; 1; 2]%Q / 2) (nth 0 (nth 0 (center_rows [0; 1; 2]%Q [[[5; 6; 7]%R]]) []) []) 0%R =
    nth 0 (nth 0 (nth 0 [[[5; 6; 7]%R]] []) []) 0%R /\
  (nth (length [0; 1; 2]%Q / 2) (roll_times [0; 1; 2]%Q) 0%Q == 0)%Q.
Proof.
  split; [simpl; lia | split; [reflexivity |]].
  apply (center_rows_lag_zero [0; 1; 2]%Q [[[5; 6; 7]%R]] 0 0); [simpl; lia | reflexivity].
Defined.

End TimeAxisFacts.

(* ------------------------------------------------------------------------- *)
(** ** The first significant cluster of the late-maintenance test *)

Module ClusterFacts.
Import Events TimeAxis.
Local Open Scope nat_scope.

Lemma np_diff_cons2 (x y : nat) (t : list nat) :
  np_diff (x :: y :: t) = (y - x) :: np_diff (y :: t).
Proof. reflexivity. Qed.

Lemma np_diff_seq (m : nat) : forall a, np_diff (seq a m) = repeat 1 (m - 1).
Proof.
  induction m as [| m IH]; intro a; [reflexivity |].
  destruct m as [| m]; [reflexivity |].
  assert (E2 : seq (S a) (S m) = S a :: seq (S (S a)) m) by reflexivity.
  change (seq a (S (S m))) with (a :: seq (S a) (S m)).
  rewrite E2, np_diff_cons2, <- E2, (IH (S a)).
  replace (S (S m) - 1) with (S (S m - 1)) by lia.
  cbn [repeat]. f_equal. lia.
Qed.

Lemma np_diff_seq_app (m : nat) : forall a b rest,
  np_diff (seq a (S m) ++ b :: rest) = repeat 1 m ++ (b - (a + m)) :: np_diff (b :: rest).
Proof.
  induction m as [| m IH]; intros a b rest.
  - simpl. rewrite Nat.add_0_r. reflexivity.
  - assert (E2 : seq (S a) (S m) ++ b :: rest = S a :: (seq (S (S a)) m ++ b :: rest))
      by reflexivity.
    change (seq a (S (S m)) ++ b :: rest) with (a :: (seq (S a) (S m) ++ b :: rest)).
    rewrite E2, np_diff_cons2, <- E2, (IH (S a) b rest). cbn [repeat app].
    replace (S a - a) with 1 by lia. replace (S a + m) with (a + S m) by lia.
    reflexivity.
Qed.

Lemma where_from_repeat_false (m : nat) : forall k l,
  where_from k (repeat false m ++ l) = where_from (k + m) l.
Proof.
  induction m as [| m IH]; intros k l; simpl.
  - rewrite Nat.add_0_r. reflexivity.
  - rewrite IH. f_equal. lia.
Qed.

(** [first_cluster] (lines 608-609) raises [IndexError] whenever the
    significant samples form a single run of consecutive indices, since
    [np.diff(sig) > 1] then never holds. *)
Theorem first_cluster_single_run (a n : nat) :
  first_cluster (seq a (S n)) = None.
Proof.
  unfold first_cluster. cbn [seq].
  change (a :: seq (S a) n) with (seq a (S n)).
  rewrite np_diff_seq. rewrite map_repeat. replace (Nat.ltb 1 1) with false by reflexivity.
  unfold np_where. rewrite <- (app_nil_r (repeat false (S n - 1))).
  rewrite where_from_repeat_false. reflexivity.
Qed.

(** When the first run of significant samples [a, ..., a + n + 1] has at
    least two samples and is followed by a gap, [first_cluster] reports
    [a + n] as its end: the last sample of the run is left out. *)
Theorem first_cluster_drops_run_end (a n b : nat) (rest : list nat) :
  a + S (S n) < b ->
  first_cluster (seq a (S (S n)) ++ b :: rest) = Some (a, a + n).
Proof.
  intro Hb. unfold first_cluster.
  change (seq a (S (S n)) ++ b :: rest) with (a :: (seq (S a) (S n) ++ b :: rest)).
  change (a :: (seq (S a) (S n) ++ b :: rest)) with (seq a (S (S n)) ++ b :: rest).
  rewrite np_diff_seq_app. rewrite map_app, map_repeat. replace (Nat.ltb 1 1) with false by reflexivity.
  unfold np_where. rewrite where_from_repeat_false. cbn [map where_from].
  replace (Nat.ltb 1 (b - (a + S n))) with true by (symmetry; apply Nat.ltb_lt; lia).
  simpl (0 + S n). unfold py_index.
  replace (Z.of_nat (S n) - 1 <? 0)%Z with false by (symmetry; apply Z.ltb_ge; lia).
  replace (Z.to_nat (Z.of_nat (S n) - 1)) with n by lia.
  rewrite nth_error_app1 by (rewrite length_seq; lia).
  rewrite nth_error_seq.
  replace (Nat.ltb n (S (S n))) with true by (symmetry; apply Nat.ltb_lt; lia).
  reflexivity.
Qed.

Lemma first_cluster_drops_run_end_witness :
  2 + 3 < 9 /\ first_cluster ([2; 3; 4] ++ [9; 10]) = Some (2, 3).
Proof.
  split; [lia |].
  apply (first_cluster_drops_run_end 2 1 9 [10]). lia.
Defined.

(** When the first significant sample is isolated (the next one is more
    than one index away), [sig[-1]] is read: the reported end of the first
    cluster is the last significant sample of all. *)
Theorem first_cluster_isolated_start (a b : nat) (rest : list nat) :
  S a < b ->
  first_cluster (a :: b :: rest) = Some (a, last (b :: rest) 0).
Proof.
  intro Hb. unfold first_cluster. cbn [np_diff map].
  replace (Nat.ltb 1 (b - a)) with true by (symmetry; apply Nat.ltb_lt; lia).
  unfold np_where. cbn [where_from]. unfold py_index.
  replace (Z.of_nat 0 - 1 <? 0)%Z with true by reflexivity.
  set (l := a :: b :: rest).
  replace (Z.of_nat (length l) + (Z.of_nat 0 - 1) <? 0)%Z with false
    by (symmetry; apply Z.ltb_ge; subst l; simpl length; lia).
  replace (Z.to_nat (Z.of_nat (length l) + (Z.of_nat 0 - 1))) with (length l - 1)
    by (subst l; simpl length; lia).
  assert (Hl : forall (x : nat) (xs : list nat),
             nth_error (x :: xs) (length (x :: xs) - 1) = Some (last (x :: xs) 0)).
  { intros x xs. revert x. induction xs as [| y xs IH]; intro x; [reflexivity |].
    simpl length. replace (S (S (length xs)) - 1) with (S (length (y :: xs) - 1))
      by (simpl; lia).
    cbn [nth_error]. rewrite IH. reflexivity. }
  subst l. rewrite Hl. reflexivity.
Qed.

Lemma first_cluster_isolated_start_witness :
  3 < 7 /\ first_cluster [2; 7; 8; 20] = Some (2, 20).
Proof.
  split; [lia |].
  apply (first_cluster_isolated_start 2 7 [8; 20]). lia.
Defined.

End ClusterFacts.

(* ------------------------------------------------------------------------- *)
(** ** The 'diag-gen' test statistic *)

Module DiagGenFacts.
Import DiagGen.
Local Open Scope nat_scope.

Lemma sum_app (u v : list R) : sum (u ++ v) = (sum u + sum v)%R.
Proof.
  induction u as [| x u IH]; simpl; [lra | unfold sum in *; simpl; rewrite IH; lra].
Qed.

Lemma sum_row (c : R) (i L : nat) : forall k,
  sum (map (fun j => if Nat.eqb i j then c else 0%R) (seq k L)) =
  if Nat.leb k i && Nat.ltb i (k + L) then c else 0%R.
Proof.
  induction L as [| L IH]; intro k.
  - unfold sum. cbn [seq map fold_right].
    destruct (Nat.leb_spec k i), (Nat.ltb_spec i (k + 0)); simpl; first [reflexivity | lia].
  - cbn [seq map]. unfold sum at 1. cbn [fold_right].
    fold (sum (map (fun j => if Nat.eqb i j then c else 0%R) (seq (S k) L))).
    rewrite IH.
    destruct (Nat.eqb_spec i k), (Nat.leb_spec k i), (Nat.leb_spec (S k) i),
      (Nat.ltb_spec i (k + S L)), (Nat.ltb_spec i (S k + L)); simpl;
      first [lra | lia].
Qed.

Lemma sum_concat_rows (f : nat -> list R) (l : list nat) :
  sum (concat (map f l)) = sum (map (fun i => sum (f i)) l).
Proof.
  induction l as [| i l IH]; [reflexivity |].
  cbn [map concat]. rewrite sum_app, IH. reflexivity.
Qed.

Lemma length_concat_rows (f : nat -> list R) (L : nat) (l : list nat) :
  (forall i, length (f i) = L) -> length (concat (map f l)) = length l * L.
Proof.
  intro Hf. induction l as [| i l IH]; [reflexivity |].
  cbn [map concat]. rewrite length_app, IH, Hf. simpl. lia.
Qed.

Lemma map_nth_seq (v : list R) : map (fun i => nth i v 0%R) (seq 0 (length v)) = v.
Proof.
  induction v as [| x v IH]; [reflexivity |].
  simpl length. cbn [seq map]. rewrite <- seq_shift. rewrite map_map.
  cbn [nth]. rewrite IH. reflexivity.
Qed.

Lemma mean2d_np_diag (v : list R) :
  v <> [] -> mean2d (np_diag_1d v) = (mean v / INR (length v))%R.
Proof.
  intro Hv. unfold mean2d, mean, np_diag_1d.
  assert (HL : (0 < INR (length v))%R).
  { apply lt_0_INR. destruct v; [congruence | simpl; lia]. }
  rewrite sum_concat_rows.
  rewrite (length_concat_rows _ (length v)) by (intro i; rewrite length_map, length_seq; reflexivity).
  rewrite length_seq.
  rewrite (map_ext_in _ (fun i => nth i v 0%R)).
  - rewrite map_nth_seq. rewrite mult_INR. field. lra.
  - intros i Hi. apply in_seq in Hi. rewrite sum_row.
    replace (Nat.leb 0 i && Nat.ltb i (0 + length v))%bool with true
      by (symmetry; apply andb_true_iff; split; [apply Nat.leb_le | apply Nat.ltb_lt]; lia).
    reflexivity.
Qed.

(** The 'diag-gen' statistic (lines 558-563): for a non-empty time window,
    the per-subject "mean diagonal score" is [np.diag] of an already
    diagonal 1-D vector averaged over an m-by-m matrix, so it equals the
    mean generalisation score divided by the window length m. *)
Theorem diag_is_gen_over_window (m : list (list R)) (toi : list nat) :
  toi <> [] ->
  fst (diag_gen m toi) = (snd (diag_gen m toi) / INR (length toi))%R.
Proof.
  intro Hne. unfold diag_gen. cbn [fst snd].
  rewrite mean2d_np_diag.
  - unfold paired_index. rewrite length_map. reflexivity.
  - unfold paired_index. destruct toi; [congruence | discriminate].
Qed.

Lemma diag_is_gen_over_window_witness :
  [0; 1]%nat <> [] /\
  fst (diag_gen [[1; 2]; [3; 4]]%R [0; 1]%nat) =
    (snd (diag_gen [[1; 2]; [3; 4]]%R [0; 1]%nat) / INR (length [0; 1]%nat))%R.
Proof.
  split; [discriminate |].
  apply (diag_is_gen_over_window [[1; 2]; [3; 4]]%R [0; 1]%nat). discriminate.
Defined.

End DiagGenFacts.

(* ------------------------------------------------------------------------- *)
(** ** Caching, artifact pruning and per-subject storage *)

Module StoreFacts.
Import Store.
Local Open Scope nat_scope.

(** Once [cached] has produced a value under a name, later calls under the
    same name return that value and leave the store unchanged, whatever
    their compute function: a cached result is never refreshed. *)
Theorem cached_never_recomputed {A : Type} (ana_name : string)
    (compute compute' : unit -> A) (store store' : list (string * A)) (v : A) :
  cached ana_name compute store = (v, store') ->
  cached ana_name compute' store' = (v, store').
Proof.
  unfold cached.
  destruct (find (fun '(k, _) => String.eqb k ana_name) store) as [[k v0] |] eqn:E;
    intro H; injection H as <- <-.
  - rewrite E. reflexivity.
  - cbn [find]. rewrite String.eqb_refl. reflexivity.
Qed.

Lemma cached_never_recomputed_witness :
  cached "target_present-vis" (fun _ => 1%nat) [] = (1%nat, [("target_present-vis", 1%nat)]) /\
  cached "target_present-vis" (fun _ => 2%nat) [("target_present-vis", 1%nat)]
    = (1%nat, [("target_present-vis", 1%nat)]).
Proof.
  split; [reflexivity |].
  apply (cached_never_recomputed "target_present-vis" (fun _ => 1%nat) (fun _ => 2%nat) []).
  reflexivity.
Defined.

(** Every analysis that [run_plot_subscore_gat.py] keeps (lines 25-26) is
    one for which [run_decoding._run] keeps [gat.y_pred_] in the saved
    'decod' artifact (lines 50-54), which [_correlate] and the subscore
    functions read. *)
Theorem subscore_analyses_keep_y_pred (names : list string) (n : string) :
  In n (subscore_analyses names) -> keeps_y_pred n = true.
Proof.
  unfold subscore_analyses. rewrite filter_In. intros [_ H].
  unfold keeps_y_pred. apply existsb_exists.
  apply existsb_exists in H as [x [Hx Heq]].
  apply String.eqb_eq in Heq. subst x.
  exists n. split; [| apply String.eqb_refl].
  destruct Hx as [<- | [<- | []]]; simpl; tauto.
Qed.

Lemma subscore_analyses_keep_y_pred_witness :
  In "target_circAngle" (subscore_analyses ["target_present"; "probe_phase"; "target_circAngle"]) /\
  keeps_y_pred "target_circAngle" = true.
Proof.
  split; [simpl; tauto |].
  apply (subscore_analyses_keep_y_pred ["target_present"; "probe_phase"; "target_circAngle"]).
  simpl. tauto.
Defined.

Lemma fold_store_None {A : Type} (l : list (nat * A)) :
  fold_left (fun acc '(s, v) => match acc with
                                | Some rows => set_row rows s v
                                | None => None
                                end) l None = None.
Proof.
  induction l as [| [s v] l IH]; [reflexivity | exact IH].
Qed.

Lemma fold_store {A : Type} (zero : A) (ps : list A) : forall pre m,
  fold_left (fun acc '(s, v) => match acc with
                                | Some rows => set_row rows s v
                                | None => None
                                end)
            (combine (seq (length pre) (length ps)) ps)
            (Some (pre ++ repeat zero m)) =
  if Nat.leb (length ps) m then Some (pre ++ ps ++ repeat zero (m - length ps)) else None.
Proof.
  induction ps as [| p ps IH]; intros pre m.
  - simpl. rewrite Nat.sub_0_r. reflexivity.
  - cbn [length seq combine fold_left].
    destruct m as [| m].
    + unfold set_row. rewrite app_nil_r.
      replace (Nat.ltb (length pre) (length pre)) with false
        by (symmetry; apply Nat.ltb_ge; lia).
      apply fold_store_None.
    + unfold set_row.
      replace (Nat.ltb (length pre) (length (pre ++ repeat zero (S m)))) with true
        by (symmetry; apply Nat.ltb_lt; rewrite length_app, repeat_length; lia).
      rewrite firstn_app, firstn_all, Nat.sub_diag, firstn_O, app_nil_r.
      rewrite skipn_app. replace (S (length pre) - length pre) with 1 by lia.
      rewrite skipn_all2 by lia. cbn [app repeat skipn].
      replace (pre ++ p :: repeat zero m) with ((pre ++ [p]) ++ repeat zero m)
        by (rewrite <- app_assoc; reflexivity).
      replace (S (length pre)) with (length (pre ++ [p])) by (rewrite length_app; simpl; lia).
      rewrite IH. simpl (Nat.leb (S (length ps)) (S m)).
      destruct (Nat.leb (length ps) m); [| reflexivity].
      rewrite <- app_assoc. reflexivity.
Qed.

(** The per-subject loop of [_analyze_continuous] and [_analyze_toi]
    (lines 182-199, 217-233) with [n_subject = 20]: with at most 20
    subjects the rows are the subjects' results in order, and the rows
    past the last subject stay at zero. *)
Theorem store_subjects_pads (A : Type) (zero : A) (per_subject : list A) :
  length per_subject <= 20 ->
  store_subjects zero per_subject =
    Some (per_subject ++ repeat zero (20 - length per_subject)).
Proof.
  intro H. unfold store_subjects.
  pose proof (fold_store zero per_subject [] 20) as E. cbn [length app] in E.
  rewrite E. replace (Nat.leb (length per_subject) 20) with true
    by (symmetry; apply Nat.leb_le; exact H).
  reflexivity.
Qed.

Lemma store_subjects_pads_witness :
  length [7; 8]%nat <= 20 /\
  store_subjects 0%nat [7; 8]%nat = Some ([7; 8]%nat ++ repeat 0%nat 18).
Proof.
  split; [simpl; lia |].
  apply (store_subjects_pads nat 0%nat [7; 8]%nat). simpl. lia.
Defined.

(** With more than 20 subjects the same loop raises [IndexError]. *)
Theorem store_subjects_overflow (A : Type) (zero : A) (per_subject : list A) :
  20 < length per_subject -> store_subjects zero per_subject = None.
Proof.
  intro H. unfold store_subjects.
  pose proof (fold_store zero per_subject [] 20) as E. cbn [length app] in E.
  rewrite E. replace (Nat.leb (length per_subject) 20) with false
    by (symmetry; apply Nat.leb_gt; exact H).
  reflexivity.
Qed.

Lemma store_subjects_overflow_witness :
  20 < length (repeat 0%nat 21) /\ store_subjects 0%nat (repeat 0%nat 21) = None.
Proof.
  split; [rewrite repeat_length; lia |].
  apply (store_subjects_overflow nat 0%nat (repeat 0%nat 21)).
  rewrite repeat_length. lia.
Defined.

End StoreFacts.

(* ------------------------------------------------------------------------- *)
(** ** Further properties of [_subscore] and [_subregress] *)

Module SubscoreRegressFacts.
Import Events Subscore Regress Samples.
Local Open Scope nat_scope.

(** An unknown factor (anything but 'visibility' and 'contrast') makes
    both [_subscore] and [_subregress] raise [KeyError], before any data
    is read. *)
Theorem unknown_factor_KeyError
    (scorer : list Q -> list (list R) -> list R)
    (repeated_spearman : list (list R) -> list Q -> list R)
    (y_pred : list (list R)) (events : list event) (name factor : string)
    (independent : bool) :
  factor <> "visibility" -> factor <> "contrast" ->
  _subscore scorer y_pred events name factor = Err KeyError /\
  _subregress repeated_spearman y_pred events name factor independent = Err KeyError.
Proof.
  intros H1 H2.
  assert (Hf : factors factor = Err KeyError).
  { unfold factors. apply String.eqb_neq in H1, H2. rewrite H1, H2. reflexivity. }
  unfold _subscore, _subregress. rewrite Hf. split; reflexivity.
Qed.

Lemma unknown_factor_KeyError_witness :
  "duration" <> "visibility" /\ "duration" <> "contrast" /\
  _subscore (fun _ _ => []) [] [] "target_present" "duration" = Err KeyError /\
  _subregress (fun _ _ => []) [] [] "target_present" "duration" false = Err KeyError.
Proof.
  split; [discriminate | split; [discriminate |]].
  apply (unknown_factor_KeyError (fun _ _ => []) (fun _ _ => []) [] [] "target_present"
           "duration" false); discriminate.
Defined.

(** The column of a level in the result of [_subscore] depends on the
    predictions only through the trials selected for that level: two
    prediction arrays with the same number of time points that agree on
    those trials give the same column. *)
Theorem subscore_level_local (scorer : list Q -> list (list R) -> list R)
    (y_pred y_pred' : list (list R)) (events : list event)
    (name factor key : string) (values y_true key_col : list Q)
    (ii : nat) (value : Q) (scores scores' : list (list (option R))) :
  factors factor = Ok (key, values) ->
  col name events = Ok y_true -> col key events = Ok key_col ->
  nth_error values ii = Some value ->
  n_times_of y_pred = n_times_of y_pred' ->
  (forall i, In i (level_sel name events key_col value) -> nth i y_pred [] = nth i y_pred' []) ->
  _subscore scorer y_pred events name factor = Ok scores ->
  _subscore scorer y_pred' events name factor = Ok scores' ->
  forall t, cell scores t ii = cell scores' t ii.
Proof.
  intros Hf Hc Hk Hv Hn Hagree Hs Hs' t.
  destruct (SubscoreFacts.subscore_cells scorer y_pred events name factor key values y_true key_col
              Hf Hc Hk) as [sc [E [Hlen Hcell]]].
  destruct (SubscoreFacts.subscore_cells scorer y_pred' events name factor key values y_true key_col
              Hf Hc Hk) as [sc' [E' [Hlen' Hcell']]].
  rewrite Hs in E. injection E as <-. rewrite Hs' in E'. injection E' as <-.
  destruct (Nat.lt_ge_cases t (n_times_of y_pred)) as [Ht | Ht].
  - rewrite (Hcell t ii value Ht Hv), (Hcell' t ii value ltac:(lia) Hv).
    unfold level_cell, level_score.
    rewrite (NoninterferenceFacts.take_ext_in [] y_pred y_pred' _ Hagree).
    reflexivity.
  - unfold cell. rewrite (nth_overflow scores) by lia.
    rewrite (nth_overflow scores') by lia. reflexivity.
Qed.

Lemma subscore_level_local_witness :
  let scorer := fun (_ : list Q) (yp : list (list R)) =>
                  [fold_right Rplus 0%R (map (hd 0%R) yp)] in
  let scores := fill_levels scorer "target_present" y_pred_lv events_lv
                  [1; 1; 1; 1; 0; 1]%Q [1; 1; 1; 1; 0; 2]%Q (repeat (repeat None 4) 1)
                  (combine (seq 0 4) [0; 1; 2; 3]%Q) in
  let scores' := fill_levels scorer "target_present" y_pred_lv' events_lv
                  [1; 1; 1; 1; 0; 1]%Q [1; 1; 1; 1; 0; 2]%Q (repeat (repeat None 4) 1)
                  (combine (seq 0 4) [0; 1; 2; 3]%Q) in
  factors "visibility" = Ok ("detect_button", [0; 1; 2; 3]%Q) /\
  col "target_present" events_lv = Ok [1; 1; 1; 1; 0; 1]%Q /\
  col "detect_button" events_lv = Ok [1; 1; 1; 1; 0; 2]%Q /\
  nth_error [0; 1; 2; 3]%Q 1 = Some 1%Q /\
  n_times_of y_pred_lv = n_times_of y_pred_lv' /\
  level_sel "target_present" events_lv [1; 1; 1; 1; 0; 2]%Q 1%Q = [0; 1; 2; 3; 4] /\
  (forall i, In i (level_sel "target_present" events_lv [1; 1; 1; 1; 0; 2]%Q 1%Q) ->
     nth i y_pred_lv [] = nth i y_pred_lv' []) /\
  _subscore scorer y_pred_lv events_lv "target_present" "visibility" = Ok scores /\
  _subscore scorer y_pred_lv' events_lv "target_present" "visibility" = Ok scores' /\
  cell scores 0 1 <> None /\
  forall t, cell scores t 1 = cell scores' t 1.
Proof.
  intros scorer scores scores'.
  assert (Hsel : forall i, In i (level_sel "target_present" events_lv [1; 1; 1; 1; 0; 2]%Q 1%Q) ->
     nth i y_pred_lv [] = nth i y_pred_lv' []).
  { intros i Hi. vm_compute in Hi.
    destruct Hi as [<- | [<- | [<- | [<- | [<- | []]]]]]; reflexivity. }
  split; [reflexivity | split; [reflexivity | split; [reflexivity | split; [reflexivity |
    split; [reflexivity | split; [reflexivity | split; [exact Hsel |
    split; [reflexivity | split; [reflexivity | split; [vm_compute; discriminate |]]]]]]]]]].
  apply (subscore_level_local scorer y_pred_lv y_pred_lv' events_lv "target_present" "visibility"
           "detect_button" [0; 1; 2; 3]%Q [1; 1; 1; 1; 0; 1]%Q [1; 1; 1; 1; 0; 2]%Q 1 1%Q);
    try reflexivity; exact Hsel.
Defined.

Lemma NoDup_where_from (mask : list bool) : forall k, NoDup (where_from k mask).
Proof.
  induction mask as [| b mask IH]; intro k; simpl; [constructor |].
  destruct b; [| apply IH].
  constructor; [| apply IH].
  intro Hin. apply MinTrialFacts.In_where_from in Hin. lia.
Qed.

Lemma intersect1d_length (mask : list bool) (sel : list nat) :
  length (intersect1d (np_where mask) sel) <= length sel.
Proof.
  apply NoDup_incl_length.
  - apply NoDup_filter. apply NoDup_where_from.
  - intros i Hi. unfold intersect1d in Hi. apply filter_In in Hi as [_ Hi].
    apply NoninterferenceFacts.existsb_eqb_In. exact Hi.
Qed.

Lemma nanmean_axis0_nan (rows : list (list (option R))) (n_times : nat) :
  Forall (fun row => row = repeat None n_times) rows ->
  nanmean_axis0 rows n_times = repeat None n_times.
Proof.
  intro Hrows. unfold nanmean_axis0.
  rewrite <- (length_seq n_times 0) at 2. rewrite <- map_const.
  apply map_ext_in. intros t Ht.
  assert (E : flat_map (fun row => match nth t row None with
                                   | Some v => [v]
                                   | None => []
                                   end) rows = []).
  { induction Hrows as [| row rows Hrow _ IH]; [reflexivity |].
    cbn [flat_map]. rewrite IH, Hrow, nth_repeat. reflexivity. }
  rewrite E. reflexivity.
Qed.

(** In independent mode, when at most five trials pass the selection of
    line 148 (present targets at or above the factor's first level), every
    confound level is skipped and [_subregress] returns an all-NaN vector,
    one NaN per time point. *)
Theorem independent_few_trials_all_nan
    (repeated_spearman : list (list R) -> list Q -> list R)
    (y_pred : list (list R)) (events : list event) (name factor key : string)
    (values y_true key_col : list Q) :
  factors factor = Ok (key, values) ->
  col name events = Ok y_true -> col key events = Ok key_col ->
  length y_pred = length y_true ->
  length (regress_sel events key_col values) <= 5 ->
  _subregress repeated_spearman y_pred events name factor true =
    Ok (repeat None (n_times_of y_pred)).
Proof.
  intros Hf Hc Hk Hlen Hsel. unfold _subregress.
  rewrite Hf. cbn [bind]. rewrite Hc. cbn [bind].
  replace (negb (Nat.eqb (length y_pred) (length y_true))) with false
    by (rewrite Hlen, Nat.eqb_refl; reflexivity).
  rewrite Hk. cbn [bind].
  set (cov_factor := if String.eqb factor "visibility" then "target_contrast" else "detect_button").
  assert (Hcov : exists cov_col, col cov_factor events = Ok cov_col).
  { subst cov_factor. destruct (String.eqb factor "visibility"); eexists; reflexivity. }
  destruct Hcov as [cov_col Hcov]. rewrite Hcov. cbn [bind].
  f_equal. apply nanmean_axis0_nan.
  unfold independent_rows. apply Forall_forall. intros row Hrow.
  apply in_map_iff in Hrow as [cov_value [<- _]].
  replace (Nat.leb (length (intersect1d (np_where (map (fun x => Qeq_bool x cov_value) cov_col))
                                        (regress_sel events key_col values))) 5) with true.
  - reflexivity.
  - symmetry. apply Nat.leb_le.
    eapply Nat.le_trans; [apply intersect1d_length | exact Hsel].
Qed.

Lemma independent_few_trials_all_nan_witness :
  factors "visibility" = Ok ("detect_button", [0; 1; 2; 3]%Q) /\
  col "target_present" events_cx = Ok [1; 1; 1; 1; 0]%Q /\
  col "detect_button" events_cx = Ok [1; 1; 1; 1; 0]%Q /\
  length y_pred_cx = length [1; 1; 1; 1; 0]%Q /\
  length (regress_sel events_cx [1; 1; 1; 1; 0]%Q [0; 1; 2; 3]%Q) <= 5 /\
  _subregress (fun _ _ => [1%R]) y_pred_cx events_cx "target_present" "visibility" true =
    Ok (repeat None (n_times_of y_pred_cx)).
Proof.
  split; [reflexivity | split; [reflexivity | split; [reflexivity | split; [reflexivity |
    split; [vm_compute; lia |]]]]].
  apply (independent_few_trials_all_nan (fun _ _ => [1%R]) y_pred_cx events_cx "target_present"
           "visibility" "detect_button" [0; 1; 2; 3]%Q [1; 1; 1; 1; 0]%Q [1; 1; 1; 1; 0]%Q);
    try reflexivity. vm_compute. lia.
Defined.

End SubscoreRegressFacts.

(* ------------------------------------------------------------------------- *)
(** ** Range of the single-trial error *)

Module CircBoundFacts.
Import CircError.
Local Open Scope R_scope.

Lemma py_mod_range (x m : R) : 0 < m -> 0 <= py_mod x m < m.
Proof.
  intro Hm. unfold py_mod.
  destruct (base_Int_part (x / m)) as [H1 H2].
  set (j := IZR (Int_part (x / m))) in *.
  assert (Hx : x = m * (x / m)) by (field; lra).
  assert (E : x - m * j = m * (x / m - j)) by (rewrite Hx at 1; ring).
  rewrite E. split.
  - apply Rmult_le_pos; lra.
  - assert (Hlt : m * (x / m - j) < m * 1) by (apply Rmult_lt_compat_l; lra).
    lra.
Qed.

(** For a circular analysis (name containing 'circAngle'), every cell of
    the single-trial error array of [_subregress] (lines 141-143) lies
    between 0 and pi. *)
Theorem y_error_circ_range (name : string) (y_pred : list (list R)) (y_true : list R)
    (row : list R) (e : R) :
  substr_in "circAngle" name = true ->
  In row (y_error name y_pred y_true) -> In e row -> 0 <= e <= PI.
Proof.
  intros Hname Hrow He. unfold y_error in Hrow.
  apply in_map_iff in Hrow as [[r yt] [<- _]].
  apply in_map_iff in He as [p [<- _]].
  unfold trial_error. rewrite Hname.
  pose proof PI_RGT_0 as Hpi.
  destruct (py_mod_range (p - yt) (2 * PI)) as [Hlo Hhi]; [lra |].
  split; [apply Rabs_pos |]. apply Rabs_le. lra.
Qed.

Lemma y_error_circ_range_witness :
  substr_in "circAngle" "target_circAngle" = true /\
  In [trial_error "target_circAngle" 0 0] (y_error "target_circAngle" [[0]] [0]) /\
  In (trial_error "target_circAngle" 0 0) [trial_error "target_circAngle" 0 0] /\
  0 <= trial_error "target_circAngle" 0 0 <= PI.
Proof.
  split; [reflexivity | split; [left; reflexivity | split; [left; reflexivity |]]].
  apply (y_error_circ_range "target_circAngle" [[0]] [0] [trial_error "target_circAngle" 0 0]);
    [reflexivity | left; reflexivity | left; reflexivity].
Defined.

End CircBoundFacts.

(* ------------------------------------------------------------------------- *)
(** ** [_correlate]: which estimator each correlation belongs to *)

Module CorrelateFacts.
Import Events Regress.
Local Open Scope nat_scope.

Lemma nth_reshape2 (a b : nat) (flat : list R) (i j : nat) :
  i < a -> j < b -> nth j (nth i (reshape2 a b flat) []) 0%R = nth (i * b + j) flat 0%R.
Proof.
  intros Hi Hj. unfold reshape2.
  rewrite (nth_indep _ _ (firstn b (skipn (0 * b) flat))) by (rewrite length_map, length_seq; exact Hi).
  rewrite (map_nth (fun i => firstn b (skipn (i * b) flat))).
  rewrite seq_nth by exact Hi. simpl (0 + i).
  rewrite nth_firstn. replace (Nat.ltb j b) with true by (symmetry; apply Nat.ltb_lt; exact Hj).
  rewrite nth_skipn. reflexivity.
Qed.

Lemma length_flat_map_rect {A B : Type} (f : A -> B) (Y : list (list A)) (N : nat) :
  Forall (fun r => length r = N) Y ->
  length (flat_map (fun r => map f r) Y) = length Y * N.
Proof.
  induction 1 as [| r Y Hr _ IH]; [reflexivity |].
  cbn [flat_map]. rewrite length_app, length_map, IH, Hr. simpl. lia.
Qed.

Lemma nth_flat_map_rect {A B : Type} (f : A -> B) (Y : list (list A)) (N : nat)
    (a0 : A) (d : B) :
  Forall (fun r => length r = N) Y -> forall i j, i < length Y -> j < N ->
  nth (i * N + j) (flat_map (fun r => map f r) Y) d = f (nth j (nth i Y []) a0).
Proof.
  induction 1 as [| r Y Hr _ IH]; intros i j Hi Hj; simpl in Hi; [lia |].
  cbn [flat_map]. destruct i as [| i].
  - simpl (0 * N + j). rewrite app_nth1 by (rewrite length_map; lia).
    rewrite (nth_indep _ _ (f a0)) by (rewrite length_map; lia).
    rewrite map_nth. reflexivity.
  - rewrite app_nth2 by (rewrite length_map; nia).
    rewrite length_map, Hr.
    replace (S i * N + j - N) with (i * N + j) by nia.
    apply IH; lia.
Qed.

Lemma map_nth_seq_nat (v : list nat) : map (fun k => nth k v 0) (seq 0 (length v)) = v.
Proof.
  induction v as [| x v IH]; [reflexivity |].
  simpl length. cbn [seq map]. rewrite <- seq_shift. rewrite map_map.
  cbn [nth]. rewrite IH. reflexivity.
Qed.

(** If [repeated_spearman] correlates each column of its first argument
    with [y] (through some [rho]), then in the R map of one subject
    ([_correlate], lines 255-268) the cell [(i, j)] is the correlation of the
    predictions of the estimator trained at [i] and tested at [j], over the
    present trials, with their visibility: the transpose, flatten and
    reshape steps put every correlation back at its own estimator. *)
Theorem correlate_cell_is_estimator_correlation
    (repeated_spearman : list (list R) -> list Q -> list R)
    (rho : list R -> list Q -> R)
    (y_pred_ : list (list (list (list R)))) (events : list event) (i j : nat) :
  (forall X y, repeated_spearman X y =
     map (fun c => rho (map (fun row => nth c row 0%R) X) y) (seq 0 (n_times_of X))) ->
  Forall (fun r => length r = n_times_of y_pred_) y_pred_ ->
  np_where (map target_present events) <> [] ->
  i < length y_pred_ -> j < n_times_of y_pred_ ->
  nth j (nth i (correlate_subject repeated_spearman y_pred_ events) []) 0%R =
    rho (map (fun s => hd 0%R (nth s (nth j (nth i y_pred_ []) []) []))
             (np_where (map target_present events)))
        (take 0%Q (map detect_button events) (np_where (map target_present events))).
Proof.
  intros Hrs Hrect Hsel Hi Hj.
  unfold correlate_subject. cbv zeta.
  set (sel := np_where (map target_present events)) in *.
  set (N := n_times_of y_pred_) in *.
  set (h := fun trials : list (list R) => take [] trials sel).
  set (Y := map (map h) y_pred_).
  assert (HY : Forall (fun r => length r = N) Y).
  { unfold Y. apply Forall_map. eapply Forall_impl; [| exact Hrect].
    intros r Hr. rewrite length_map. exact Hr. }
  assert (HnY : n_times_of Y = N).
  { unfold Y, N. destruct y_pred_ as [| r0 y]; [reflexivity |]. simpl. apply length_map. }
  assert (HlY : length Y = length y_pred_) by (unfold Y; apply length_map).
  fold h. fold Y. rewrite HnY, HlY.
  rewrite nth_reshape2 by assumption.
  rewrite Hrs.
  set (yp := map (fun k => flat_map (fun train_row =>
                     map (fun trials => hd 0%R (nth k trials [])) train_row) Y)
                 (seq 0 (length sel))).
  assert (Hnyp : n_times_of yp = length y_pred_ * N).
  { unfold yp. destruct sel as [| s0 sel'] eqn:Es; [congruence |].
    simpl length. cbn [seq map n_times_of].
    rewrite (length_flat_map_rect _ Y N HY). rewrite HlY. reflexivity. }
  rewrite Hnyp.
  rewrite (nth_indep _ _ (rho (map (fun row => nth 0 row 0%R) yp)
                               (take 0%Q (map detect_button events) sel)))
    by (rewrite length_map, length_seq; nia).
  rewrite (map_nth (fun c => rho (map (fun row => nth c row 0%R) yp)
                                 (take 0%Q (map detect_button events) sel))).
  rewrite seq_nth by nia. simpl (0 + (i * N + j)).
  f_equal.
  unfold yp. rewrite map_map.
  rewrite <- (map_nth_seq_nat sel) at 2. rewrite map_map.
  apply map_ext_in. intros k Hk. apply in_seq in Hk.
  rewrite (nth_flat_map_rect _ Y N [] 0%R HY i j) by lia.
  unfold Y. rewrite TimeAxisFacts.nth_map_nil by reflexivity.
  assert (Hrow : j < length (nth i y_pred_ [])).
  { rewrite Forall_forall in Hrect. rewrite (Hrect _ (nth_In _ _ Hi)). exact Hj. }
  rewrite (nth_indep _ _ (h [])) by (rewrite length_map; exact Hrow).
  rewrite map_nth. unfold h, take.
  rewrite (nth_indep _ _ (nth 0 (nth j (nth i y_pred_ []) []) []))
    by (rewrite length_map; lia).
  rewrite (map_nth (fun i0 => nth i0 (nth j (nth i y_pred_ []) []) [])).
  reflexivity.
Qed.

Lemma correlate_cell_is_estimator_correlation_witness :
  let rho := fun (xs : list R) (_ : list Q) => fold_right Rplus 0%R xs in
  let rs := fun (X : list (list R)) (y : list Q) =>
    map (fun c => rho (map (fun row => nth c row 0%R) X) y) (seq 0 (n_times_of X)) in
  let yp := [[[[1%R]; [2%R]]; [[3%R]; [4%R]]]] in
  let evs := [Samples.ev_present1; Samples.ev_absent0] in
  (forall X y, rs X y =
     map (fun c => rho (map (fun row => nth c row 0%R) X) y) (seq 0 (n_times_of X))) /\
  Forall (fun r => length r = n_times_of yp) yp /\
  np_where (map target_present evs) <> [] /\
  0 < length yp /\ 1 < n_times_of yp /\
  nth 1 (nth 0 (correlate_subject rs yp evs) []) 0%R =
    rho (map (fun s => hd 0%R (nth s (nth 1 (nth 0 yp []) []) []))
             (np_where (map target_present evs)))
        (take 0%Q (map detect_button evs) (np_where (map target_present evs))).
Proof.
  intros rho rs yp evs.
  assert (Hrs : forall X y, rs X y =
     map (fun c => rho (map (fun row => nth c row 0%R) X) y) (seq 0 (n_times_of X)))
    by reflexivity.
  assert (Hrect : Forall (fun r => length r = n_times_of yp) yp)
    by (repeat constructor).
  assert (Hsel : np_where (map target_present evs) <> []) by discriminate.
  split; [exact Hrs | split; [exact Hrect | split; [exact Hsel |
    split; [simpl; lia | split; [simpl; lia |]]]]].
  apply (correlate_cell_is_estimator_correlation rs rho yp evs 0 1 Hrs Hrect Hsel);
    simpl; lia.
Defined.

End CorrelateFacts.

(* ------------------------------------------------------------------------- *)
(** ** Shape of [_subscore] and trials used by [_run] *)

Module ShapeRunFacts.
Import Events Subscore Decoding.
Local Open Scope nat_scope.

(** Whenever [_subscore] returns, its array has one row per time point of
    [y_pred] and one column per level of the factor (4 for 'visibility',
    3 for 'contrast'), the shape of the slot it is stored into (lines
    193-194 and 227-228). *)
Theorem subscore_shape (scorer : list Q -> list (list R) -> list R)
    (y_pred : list (list R)) (events : list event) (name factor key : string)
    (values : list Q) (scores : list (list (option R))) :
  factors factor = Ok (key, values) ->
  _subscore scorer y_pred events name factor = Ok scores ->
  length scores = n_times_of y_pred /\ Forall (fun row => length row = length values) scores.
Proof.
  intros Hf Hs. unfold _subscore in Hs. rewrite Hf in Hs. cbn [bind] in Hs.
  destruct (col name events) as [y_true |] eqn:Hc; [| discriminate]. cbn [bind] in Hs.
  destruct (col key events) as [key_col |] eqn:Hk; [| discriminate]. cbn [bind] in Hs.
  injection Hs as <-.
  destruct (SubscoreFacts.fill_levels_cells scorer name y_pred events y_true key_col values 0
              (length values) (repeat (repeat None (length values)) (n_times_of y_pred))
              (SubscoreFacts.Forall_nan_rows _ _) ltac:(lia)) as [Hl [Hf' _]].
  split; [rewrite Hl; apply repeat_length | exact Hf'].
Qed.

Lemma subscore_shape_witness :
  factors "visibility" = Ok ("detect_button", [0; 1; 2; 3]%Q) /\
  _subscore (fun _ _ => [1%R]) Samples.y_pred_cx Samples.events_cx "target_present" "visibility" =
    Ok [[None; Some 1%R; None; None]] /\
  length [[None; Some 1%R; None; None]] = n_times_of Samples.y_pred_cx /\
  Forall (fun row => length row = length [0; 1; 2; 3]%Q) [[None; Some 1%R; None; None]].
Proof.
  split; [reflexivity | split; [vm_compute; reflexivity |]].
  apply (subscore_shape (fun _ _ => [1%R]) Samples.y_pred_cx Samples.events_cx "target_present"
           "visibility" "detect_button" [0; 1; 2; 3]%Q); [reflexivity |].
  vm_compute. reflexivity.
Defined.

(** Every trial [_run] fits the GAT on (run_decoding.py, lines 20-31) is
    kept by the analysis query and has a non-NaN label in the condition
    column, and the scoring uses exactly the fitted trials. *)
Theorem run_fits_only_labelled (events : dataframe) (a : analysis)
    (effects : list effect) (sel : list nat) :
  _run events a = Ok effects -> In (Fit sel) effects ->
  In (Score sel) effects /\
  exists cond, get_column events (condition a) = Ok cond /\
    forall ii, In ii sel -> In ii (query_sel events a) /\ nth ii cond None <> None.
Proof.
  intros Hr Hin. unfold _run, selection in Hr.
  destruct (get_column events (condition a)) as [cond |] eqn:Hc; [| discriminate].
  cbn [bind] in Hr.
  set (s := filter _ (query_sel events a)) in Hr.
  destruct (Nat.eqb (length s) 0); injection Hr as <-; [destruct Hin |].
  destruct Hin as [Heq | [Heq | [Heq | [Heq | []]]]]; try discriminate.
  injection Heq as <-. split; [simpl; tauto |].
  exists cond. split; [reflexivity |].
  intros ii Hii. unfold s in Hii. apply filter_In in Hii as [Hq Hnn].
  split; [exact Hq |]. destruct (nth ii cond None); [discriminate | discriminate].
Qed.

Lemma run_fits_only_labelled_witness :
  _run [("target_circAngle", [Some 0%Q; None; Some 1%Q])]
       (mkAnalysis "target_circAngle" None "target_circAngle") =
    Ok [Fit [0; 2]; Score [0; 2]; Save "decod" "target_circAngle"; Save "score" "target_circAngle"] /\
  In (Fit [0; 2])
     [Fit [0; 2]; Score [0; 2]; Save "decod" "target_circAngle"; Save "score" "target_circAngle"] /\
  In (Score [0; 2])
     [Fit [0; 2]; Score [0; 2]; Save "decod" "target_circAngle"; Save "score" "target_circAngle"] /\
  exists cond, get_column [("target_circAngle", [Some 0%Q; None; Some 1%Q])] "target_circAngle" = Ok cond /\
    forall ii, In ii [0; 2] ->
      In ii (query_sel [("target_circAngle", [Some 0%Q; None; Some 1%Q])]
                       (mkAnalysis "target_circAngle" None "target_circAngle")) /\
      nth ii cond None <> None.
Proof.
  split; [reflexivity | split; [simpl; tauto |]].
  apply (run_fits_only_labelled [("target_circAngle", [Some 0%Q; None; Some 1%Q])]
           (mkAnalysis "target_circAngle" None "target_circAngle")
           [Fit [0; 2]; Score [0; 2]; Save "decod" "target_circAngle"; Save "score" "target_circAngle"]
           [0; 2]); [reflexivity | simpl; tauto].
Defined.

End ShapeRunFacts.
